(** * Conversation lifecycle core of the climate-belief study backend

    A shallow embedding of the lifecycle code of [server.js]
    (conversation start, fallback chat start, turn submission,
    phrase-triggered end, explicit end, the summary safety net, the
    reply generator with its fallback) together with the storage gateway
    of [lib/dataAccess.js] and the start-up path of [database.js] and
    [scripts/migrate-and-start.js].

    Conventions of the embedding.
    - A JavaScript string is its sequence of UTF-16 code units
      ([list N]); literals of the source that are not ASCII are written
      out as code units.
    - [String.prototype.toLowerCase] and the handful of external events a
      handler observes (clock readings, fresh ids, the provider's answer,
      [Math.random]) are inputs of the functions that use them.
    - The files under [data/conversations], the primary store, and the
      in-memory [activeConversations] map are finite maps keyed by the
      conversation id; a handler is a function from a world to a response
      and a world. *)

From Stdlib Require Import ZArith NArith List Ascii String Bool Lia.
From stdpp Require Import base option list gmap pretty.

Import ListNotations.
Local Open Scope N_scope.

(** ** JavaScript strings *)

Abbreviation jsstring := (list N).

(** An ASCII literal of the source as a sequence of code units. *)
Definition lit (s : string) : jsstring :=
  List.map N_of_ascii (list_ascii_of_string s).

(** WhiteSpace and LineTerminator code units, the ones [trim] strips. *)
Definition isWhiteSpace (c : N) : bool :=
  (c =? 9) || (c =? 10) || (c =? 11) || (c =? 12) || (c =? 13) ||
  (c =? 32) || (c =? 160) || (c =? 5760) ||
  ((8192 <=? c) && (c <=? 8202)) ||
  (c =? 8232) || (c =? 8233) || (c =? 8239) || (c =? 8287) ||
  (c =? 12288) || (c =? 65279).

Fixpoint trimStart (s : jsstring) : jsstring :=
  match s with
  | c :: s' => if isWhiteSpace c then trimStart s' else s
  | [] => []
  end.

Definition trimEnd (s : jsstring) : jsstring := rev (trimStart (rev s)).

(** [s.trim()] *)
Definition trim (s : jsstring) : jsstring := trimEnd (trimStart s).

Fixpoint startsWith (sub s : jsstring) : bool :=
  match sub, s with
  | [], _ => true
  | p :: sub', c :: s' => (p =? c) && startsWith sub' s'
  | _ :: _, [] => false
  end.

(** [s.includes(sub)] *)
Fixpoint includes (s sub : jsstring) : bool :=
  startsWith sub s ||
  match s with
  | [] => false
  | _ :: s' => includes s' sub
  end.

(** ** The regular expression of [shouldEndNow] *)

(** [\w] without the unicode flag: [A-Za-z0-9_]. *)
Definition isWordChar (c : N) : bool :=
  ((48 <=? c) && (c <=? 57)) || ((65 <=? c) && (c <=? 90)) ||
  ((97 <=? c) && (c <=? 122)) || (c =? 95).

(** Canonicalize of the [i] flag without the [u] flag: the upper-case
    mapping, except that a code unit outside ASCII is never mapped into
    ASCII.  Every character of the pattern is ASCII, so a code unit
    outside ASCII matches none of them, whatever its own image is; it is
    left where it is. *)
Definition canonicalize (c : N) : N :=
  if (97 <=? c) && (c <=? 122) then c - 32 else c.

(** Matches the literal [pat] at the head of [s], with the [i] flag when
    [ci] is set; the remainder of [s] on success. *)
Fixpoint matchLiteral (ci : bool) (pat s : jsstring) : option jsstring :=
  match pat, s with
  | [], _ => Some s
  | p :: pat', c :: s' =>
      if (if ci then canonicalize p =? canonicalize c else p =? c)
      then matchLiteral ci pat' s' else None
  | _ :: _, [] => None
  end.

Definition isWordAt (o : option N) : bool :=
  match o with Some c => isWordChar c | None => false end.

(** The assertion [\b] between the code unit before and the one after
    the current position ([None] at either end of the input). *)
Definition wordBoundary (prev next : option N) : bool :=
  xorb (isWordAt prev) (isWordAt next).

(** [\b alt \b] at the current position; [prev] is the code unit before
    it. *)
Definition matchWordAt (ci : bool) (prev : option N) (s : jsstring)
    (alt : jsstring) : bool :=
  wordBoundary prev (head s) &&
  match matchLiteral ci alt s with
  | Some rest => wordBoundary (last (take (length alt) s)) (head rest)
  | None => false
  end.

(** [/\b(alt1|alt2|...)\b/.test(s)]: the alternatives tried at the
    current position, then at every later one. *)
Fixpoint testWords (ci : bool) (alts : list jsstring) (prev : option N)
    (s : jsstring) : bool :=
  existsb (matchWordAt ci prev s) alts ||
  match s with
  | [] => false
  | c :: s' => testWords ci alts (Some c) s'
  end.

Definition END_PHRASE : jsstring := lit "end the chat".

(** [function shouldEndNow(text)]: [/\bend the chat\b/i.test(text.trim())],
    and [false] for an empty text. *)
Definition shouldEndNow (text : jsstring) : bool :=
  match text with
  | [] => false
  | _ => testWords true [END_PHRASE] None (trim text)
  end.

(** ** Data model *)

Inductive Role := user | assistant.

Definition isUser (r : Role) : bool :=
  match r with user => true | assistant => false end.

Definition isAssistant (r : Role) : bool :=
  match r with assistant => true | user => false end.

(** One entry of [messages].  [timestamp] is absent on the opening line
    of the fallback start; [generated_summary] is the flag of the
    safety net (absent reads as [false]). *)
Record Message := {
  role : Role;
  content : jsstring;
  timestamp : option Z;
  generated_summary : bool;
}.

(** The session aggregate, as the handlers build it and as it is written
    to [data/conversations/<id>.json] and to the [raw] column.  Instants
    are milliseconds since the epoch; [participantId] empty reads as
    absent (both are falsy). *)
Record Session := {
  id : jsstring;
  participantId : jsstring;
  startedAt : Z;
  endedAt : option Z;
  durationSeconds : option Z;
  systemPrompt : option jsstring;
  messages : list Message;
}.

(** What the lifecycle reads of [data/participants/<id>.json]:
    [belief_change?.mind_change_direction] and
    [belief_change?.mind_change_other_text]. *)
Record Participant := {
  mind_change_direction : option jsstring;
  mind_change_other_text : option jsstring;
}.

(** An entry of the in-memory [activeConversations] map. *)
Record ActiveConversation := {
  ac_participantId : option jsstring;
  ac_startedAt : Z;
  ac_lastActivity : option Z;
}.

Record World := {
  conversationFiles : gmap (list N) Session;
  participantFiles : gmap (list N) Participant;
  primaryStore : gmap (list N) Session;
  activeConversations : gmap (list N) ActiveConversation;
}.

(** The environment variables the core consumes, and the two facts about
    the primary store the process cannot decide: whether
    [new PrismaClient()] returns, and whether its calls resolve.
    [CHAT_DURATION_MS] is the constant of that name, the variable read as
    a whole number of milliseconds, 300000 when it is not set. *)
Record Env := {
  NODE_ENV : option jsstring;
  DATABASE_URL : option jsstring;
  OPENAI_API_KEY : option jsstring;
  CHAT_DURATION_MS : Z;
  prismaClientConstructs : bool;
  primaryStoreAnswers : bool;
}.

(** Truthiness of an optional string: present and not empty. *)
Definition truthy (o : option jsstring) : bool :=
  match o with
  | Some (_ :: _) => true
  | _ => false
  end.

Fixpoint strEq (a b : jsstring) : bool :=
  match a, b with
  | [], [] => true
  | x :: a', y :: b' => (x =? y) && strEq a' b'
  | _, _ => false
  end.

(** [process.env.NODE_ENV === 'production'] *)
Definition isProduction (e : Env) : bool :=
  match NODE_ENV e with
  | Some v => strEq v (lit "production")
  | None => false
  end.

(** ** Storage gateway ([lib/dataAccess.js]) *)

Inductive Outcome (A : Type) :=
  | Returned (a : A)
  | Thrown (message : jsstring).
Arguments Returned {A} a.
Arguments Thrown {A} message.



(** [this.prisma] of the singleton, in a process that got past its
    construction. *)
Definition hasPrisma (e : Env) : bool :=
  truthy (DATABASE_URL e) && prismaClientConstructs e.

Record SaveResults := { file : bool; database : bool }.

(** [process.env.NODE_ENV !== 'production' || !this.prisma] *)
Definition writesFile (e : Env) : bool :=
  negb (isProduction e) || negb (hasPrisma e).

(** The [try] block under [if (this.prisma)] runs to its end. *)
Definition writesPrimary (e : Env) : bool :=
  hasPrisma e && primaryStoreAnswers e.

(** [async saveSession(sessionData)].  The file is written unless the
    process is in production with a client; the primary store is written
    when there is a client, and a failure there is logged and reported in
    the flags only.  The file system is taken to accept the write. *)
Definition saveSession (e : Env) (sessionData : Session) (w : World)
    : SaveResults * World :=
  ({| file := writesFile e; database := writesPrimary e |},
   {| conversationFiles :=
        if writesFile e
        then <[id sessionData := sessionData]> (conversationFiles w)
        else conversationFiles w;
      participantFiles := participantFiles w;
      primaryStore :=
        if writesPrimary e
        then <[id sessionData := sessionData]> (primaryStore w)
        else primaryStore w;
      activeConversations := activeConversations w |}).

(** [readJson(path.join(conversationsDir, `${conversationId}.json`))] *)
Definition readConversation (w : World) (conversationId : jsstring)
    : option Session :=
  conversationFiles w !! conversationId.

Definition setMessages (s : Session) (ms : list Message) : Session :=
  {| id := id s; participantId := participantId s; startedAt := startedAt s;
     endedAt := endedAt s; durationSeconds := durationSeconds s;
     systemPrompt := systemPrompt s; messages := ms |}.

Definition setEnded (s : Session) (at_ : Z) (seconds : Z) : Session :=
  {| id := id s; participantId := participantId s; startedAt := startedAt s;
     endedAt := Some at_; durationSeconds := Some seconds;
     systemPrompt := systemPrompt s; messages := messages s |}.

Definition setActive (conversationId : jsstring) (a : ActiveConversation)
    (w : World) : World :=
  {| conversationFiles := conversationFiles w;
     participantFiles := participantFiles w;
     primaryStore := primaryStore w;
     activeConversations := <[conversationId := a]> (activeConversations w) |}.

(** [activeConversations.delete(conversationId)] *)
Definition deleteActive (conversationId : jsstring) (w : World) : World :=
  {| conversationFiles := conversationFiles w;
     participantFiles := participantFiles w;
     primaryStore := primaryStore w;
     activeConversations := delete conversationId (activeConversations w) |}.

(** ** Summary safety net *)

(** The host's [String.prototype.toLowerCase], the Unicode lower-case
    mapping of the runtime. *)
Class JSRuntime := { toLowerCase : jsstring -> jsstring }.

(** The three code units the source spells as the bullet. *)
Definition BULLET : jsstring := [226; 8364; 162].

(** The class of [/[...\*\-]/g]: the three code units of the bullet,
    the star and the hyphen. *)
Definition isBulletChar (c : N) : bool :=
  (c =? 226) || (c =? 8364) || (c =? 162) || (c =? 42) || (c =? 45).

(** [a.slice(-n)] *)
Definition sliceLast {A} (n : nat) (l : list A) : list A :=
  drop (length l - n)%nat l.

Fixpoint join (sep : jsstring) (l : list jsstring) : jsstring :=
  match l with
  | [] => []
  | [x] => x
  | x :: l' => x ++ sep ++ join sep l'
  end.

Definition SUMMARY_PREAMBLE : jsstring :=
  lit "Thank you for sharing your story with me. Let me summarize the key themes from our conversation:".

Definition SUMMARY_CLOSING : jsstring :=
  lit "This covers the main points we discussed about your belief change journey.".

Definition NL : jsstring := [10].

Section SafetyNet.
Context `{JSRuntime}.

(** The body of the loop of [fallbackHasExistingSummary]. *)
Definition looksLikeSummary (msg : Message) : bool :=
  let content := content msg in
  ((includes content BULLET || includes content (lit "*") ||
    includes content (lit "-")) &&
   (2 <=? length (List.filter isBulletChar content))%nat) ||
  (includes (toLowerCase content) (lit "summarize") ||
   includes (toLowerCase content) (lit "summary") ||
   includes (toLowerCase content) (lit "key themes") ||
   includes (toLowerCase content) (lit "based on our conversation")).

(** [function fallbackHasExistingSummary(messages)] *)
Definition fallbackHasExistingSummary (messages : list Message) : bool :=
  match messages with
  | [] => false
  | _ =>
      let assistantMessages :=
        List.filter (fun msg => isAssistant (role msg)) messages in
      existsb looksLikeSummary (sliceLast 5 assistantMessages)
  end.

Definition mentions (words : list jsstring) (msg : Message) : bool :=
  existsb (includes (toLowerCase (content msg))) words.

(** The [switch] on the change-direction code; the empty string when no
    case applies. *)
Definition changeDescription (direction : jsstring)
    (otherText : option jsstring) : jsstring :=
  if strEq direction (lit "exists_to_not_exists") then
    lit "From thinking climate change exists, to thinking it does not exist"
  else if strEq direction (lit "not_exists_to_exists") then
    lit "From thinking climate change does not exist, to thinking it exists"
  else if strEq direction (lit "not_urgent_to_urgent") then
    lit "From thinking climate change is not urgent, to thinking it is urgent"
  else if strEq direction (lit "urgent_to_not_urgent") then
    lit "From thinking climate change is urgent, to thinking it is not urgent"
  else if strEq direction (lit "human_to_natural") then
    lit "From thinking climate change is human-caused, to thinking it is natural"
  else if strEq direction (lit "natural_to_human") then
    lit "From thinking climate change is natural, to thinking it is human-caused"
  else if strEq direction (lit "other") then
    match otherText with
    | Some (c :: t) => c :: t
    | _ => lit "Other belief change described by participant"
    end
  else [].

Definition profilePoint (participant : option Participant)
    : list jsstring :=
  match participant with
  | Some p =>
      match mind_change_direction p with
      | Some (c :: d) =>
          match changeDescription (c :: d) (mind_change_other_text p) with
          | [] => []
          | desc => [lit "You described your belief change: " ++ desc]
          end
      | _ => []
      end
  | None => []
  end.

(** [function fallbackGenerateSummary(messages, participantId)] *)
Definition fallbackGenerateSummary (w : World) (messages : list Message)
    (participantId : jsstring) : list jsstring :=
  let participant := participantFiles w !! participantId in
  let userMessages :=
    List.filter (fun msg =>
      isUser (role msg) &&
      match content msg with [] => false | _ => true end &&
      (10 <? length (trim (content msg)))%nat &&
      negb (includes (toLowerCase (content msg)) (lit "end the chat")))
      messages in
  let theme words := existsb (mentions words) userMessages in
  let evidence :=
    theme [lit "evidence"; lit "research"; lit "study"; lit "data"] in
  let personal :=
    theme [lit "experience"; lit "personal"; lit "saw"; lit "noticed";
           lit "felt"] in
  let social :=
    theme [lit "people"; lit "family"; lit "friend"; lit "others"] in
  let media :=
    theme [lit "media"; lit "news"; lit "article"; lit "tv"] in
  let change_process :=
    theme [lit "change"; lit "shift"; lit "different"; lit "realized"] in
  let summaryPoints :=
    profilePoint participant ++
    (if evidence then
       [lit "You discussed the role of evidence and research in shaping your views"]
     else []) ++
    (if personal then
       [lit "You shared personal experiences that influenced your thinking"]
     else []) ++
    (if social then
       [lit "You talked about how other people influenced your perspective"]
     else []) ++
    (if media then
       [lit "You mentioned media sources that affected your views"]
     else []) ++
    (if change_process then
       [lit "You described the process of how your beliefs evolved"]
     else []) in
  let padded :=
    if (length summaryPoints <? 2)%nat then
      let once :=
        summaryPoints ++
        [lit "You engaged in a conversation about your climate change belief journey"] in
      if (length once <? 2)%nat then
        once ++
        [lit "You shared your perspective on what influences belief change"]
      else once
    else summaryPoints in
  take 5 padded.

(** The template literal of [fallbackEnsureConversationSummary]. *)
Definition summaryText (summaryPoints : list jsstring) : jsstring :=
  SUMMARY_PREAMBLE ++ NL ++ NL ++
  join (NL ++ NL)
    (List.map (fun point => BULLET ++ lit " " ++ point) summaryPoints) ++
  NL ++ NL ++ SUMMARY_CLOSING.

(** [async function fallbackEnsureConversationSummary(conversationId,
    participantId)]; [clock] is the reading of [new Date()] for the
    summary's timestamp. *)
Definition fallbackEnsureConversationSummary (e : Env) (clock : Z)
    (conversationId participantId : jsstring) (w : World) : World :=
  match readConversation w conversationId with
  | None => w
  | Some conversationData =>
      if fallbackHasExistingSummary (messages conversationData) then w
      else
        let summaryPoints :=
          fallbackGenerateSummary w (messages conversationData)
            participantId in
        let summaryMessage :=
          {| role := assistant;
             content := summaryText summaryPoints;
             timestamp := Some clock;
             generated_summary := true |} in
        (saveSession e
           (setMessages conversationData
              (messages conversationData ++ [summaryMessage])) w).2
  end.

End SafetyNet.

(** ** Reply generation *)

(** [.] of a regular expression without the [s] flag excludes these. *)
Definition isLineTerminator (c : N) : bool :=
  (c =? 10) || (c =? 13) || (c =? 8232) || (c =? 8233).

Fixpoint startsWithCopies (n : nat) (block s : jsstring) : bool :=
  match n with
  | O => true
  | S n' =>
      startsWith block s && startsWithCopies n' block (drop (length block) s)
  end.

(** [(.{k})\1{n,}] at the head of [s]. *)
Definition blockRepeatsAt (k n : nat) (s : jsstring) : bool :=
  let block := take k s in
  (length block =? k)%nat &&
  forallb (fun c => negb (isLineTerminator c)) block &&
  startsWithCopies n block (drop k s).

(** An unanchored pattern tried at every position. *)
Fixpoint anywhere (P : jsstring -> bool) (s : jsstring) : bool :=
  P s ||
  match s with
  | [] => false
  | _ :: s' => anywhere P s'
  end.

Definition isAsciiLetter (c : N) : bool :=
  ((65 <=? c) && (c <=? 90)) || ((97 <=? c) && (c <=? 122)).

(** [[bcdfghjklmnpqrstvwxyz]] under the [i] flag. *)
Definition isConsonant (c : N) : bool :=
  isAsciiLetter c &&
  negb (existsb (N.eqb (canonicalize c)) (lit "AEIOU")).

(** [function isGibberish(input)] *)
Definition isGibberish (input : jsstring) : bool :=
  if (length input <? 5)%nat &&
     negb (testWords false
             [lit "yes"; lit "no"; lit "maybe"; lit "ok"; lit "sure"]
             None input)
  then true
  else if anywhere (blockRepeatsAt 1 3) input ||
          anywhere (fun s => blockRepeatsAt 3 2 s || blockRepeatsAt 2 2 s ||
                             blockRepeatsAt 1 2 s) input
  then true
  else
    let consonantOnly :=
      match input with
      | [] => false
      | _ => forallb (fun c => isConsonant c || isWhiteSpace c) input
      end && (3 <? length input)%nat in
    if consonantOnly then true
    else
      let squeezed := List.filter (fun c => negb (isWhiteSpace c)) input in
      let keysmash :=
        (4 <=? length squeezed)%nat && forallb isAsciiLetter squeezed in
      if keysmash &&
         negb (testWords true
                 [lit "real"; lit "word"; lit "here"; lit "there";
                  lit "when"; lit "what"; lit "where"; lit "why"; lit "how"]
                 None input)
      then true
      else false.

(** [function isConversationControl(input)] *)
Definition isConversationControl (input : jsstring) : bool :=
  existsb (includes input)
    [lit "nevermind"; lit "never mind"; lit "forget it"; lit "skip";
     lit "next"; lit "move on"; lit "stop"; lit "quit"; lit "end";
     lit "done"; lit "finished"; lit "exit"; lit "bye"; lit "goodbye"].

Definition GIBBERISH_REPLY : jsstring :=
  lit "I'd like to understand your perspective better. Could you share your thoughts about climate change in a way that helps me follow along?".

Definition CONTROL_REPLY : jsstring :=
  lit "No problem at all. Is there anything else about climate change you'd like to explore or discuss?".

Definition SHORT_REPLY : jsstring :=
  lit "I'd love to hear more about your thoughts. Could you elaborate on your perspective about climate change?".

Definition FIRST_REPLY : jsstring :=
  lit "To start: could you describe what led you to change your mind about climate change?".

Definition earlyResponses : list jsstring :=
  [lit "That's helpful context. What specific experiences or information were most influential in shaping that view?";
   lit "I can see this is something you've thought about. Could you tell me more about what factors were most important to you?";
   lit "Thank you for sharing that perspective. Are there particular aspects of this issue that you find most compelling?"].

Definition laterResponses : list jsstring :=
  [lit "That's a thoughtful point. How do you think others who disagree might respond to that argument?";
   lit "I appreciate you explaining your viewpoint. What questions do you think are most important to consider about this issue?";
   lit "That's interesting. How has your thinking evolved as you've learned more about this topic?";
   lit "Thank you for that insight. What would you say to someone who holds the opposite view?"].

(** [arr[Math.floor(Math.random() * arr.length)]]; [random] stands for
    the draw, reduced to an index of the array. *)
Definition pickRandom (random : nat) (arr : list jsstring) : jsstring :=
  nth (random mod length arr) arr [].

Definition NO_KEY_REPLY : jsstring :=
  lit "I'm here to help you explore your thoughts about climate change. Could you tell me more about your perspective?".

(** What the race of the provider call against the 25 second timer
    settles with. *)
Inductive ProviderResult :=
  | Completed (content : option jsstring)
  | Rejected (message : jsstring)
  | TimedOut.

(** The part of the [try] block of [generateAIResponse] after the key
    check: the awaited race, then the extraction of the reply. *)
Definition awaitCompletion (provider : ProviderResult) : Outcome jsstring :=
  match provider with
  | TimedOut => Thrown (lit "OpenAI API timeout")
  | Rejected message => Thrown message
  | Completed content =>
      match option_map trim content with
      | Some (c :: response) => Returned (c :: response)
      | _ => Thrown (lit "No response received from OpenAI")
      end
  end.

Section ReplyGeneration.
Context `{JSRuntime}.

(** [function generateIntelligentFallback(messages)] *)
Definition generateIntelligentFallback (random : nat)
    (messages : list Message) : jsstring :=
  let userMessages := List.filter (fun msg => isUser (role msg)) messages in
  let userInput :=
    match last userMessages with
    | Some lastUserMessage => trim (toLowerCase (content lastUserMessage))
    | None => []
    end in
  if isGibberish userInput then GIBBERISH_REPLY
  else if isConversationControl userInput then CONTROL_REPLY
  else if (length userInput <? 10)%nat then SHORT_REPLY
  else
    let conversationLength := length userMessages in
    if (conversationLength =? 1)%nat then FIRST_REPLY
    else if (conversationLength <=? 3)%nat
    then pickRandom random earlyResponses
    else pickRandom random laterResponses.

(** [async function generateAIResponse(messages, systemPrompt)]: every
    throw of the [try] block lands in its [catch], which answers with
    the fallback. *)
Definition generateAIResponse (e : Env) (provider : ProviderResult)
    (random : nat) (messages : list Message)
    (systemPrompt : option jsstring) : jsstring :=
  if negb (truthy (OPENAI_API_KEY e)) then NO_KEY_REPLY
  else
    match awaitCompletion provider with
    | Returned response => response
    | Thrown _ => generateIntelligentFallback random messages
    end.

End ReplyGeneration.

(** ** Request handlers *)

(** A handler takes the request and the world and returns the response
    and the world.  Fields of the request body are strings when present.
    Both closing paths end with a write-back of the transcript into the
    participant's profile ([database.saveParticipant], inside its own
    [try]); it touches neither a conversation record, nor the tracker,
    nor the two profile fields the lifecycle reads (it writes the
    profile, and a row of the primary store under the participant's id),
    and is left out. *)

Inductive ErrorType :=
  | validation_error
  | participant_not_found
  | conversation_not_found
  | timeout
  | data_error
  | server_error
  | connection_timeout
  | network_error
  | rate_limit.

(** What a handler sends: [res.status(status).json({ error, type })], or
    one of the success bodies.  The fallback endpoints send no [type]. *)
Inductive Response :=
  | Failure (status : N) (type : option ErrorType)
  | Started (conversationId : jsstring)
  | StartedWith (conversationId : jsstring) (opening : list Message)
  | Reply (reply : jsstring) (sessionEnded : bool)
  | Ended.

(** The [catch] of the message handler: the category chosen from the
    thrown error's message. *)
Definition classifyError (message : jsstring) : ErrorType :=
  if includes message (lit "timeout") || includes message (lit "ECONNRESET")
  then connection_timeout
  else if includes message (lit "ENOTFOUND") ||
          includes message (lit "network")
  then network_error
  else if includes message (lit "rate limit") then rate_limit
  else server_error.

Definition SYSTEM_PROMPT : jsstring :=
  lit "You are an AI assistant facilitating a conversation about climate change. Your role is to engage thoughtfully and ask follow-up questions to help the participant explore their views. Do not try to persuade or change their mind - instead, focus on understanding their perspective and encouraging reflection. Keep responses conversational and under 150 words.".

(** The closing line, with the three code units the source has for its
    dash. *)
Definition FINAL_REPLY : jsstring :=
  lit "Okay " ++ [226; 8364; 8221] ++
  lit " ending the chat now. Thanks for participating!".

(** [Math.floor((now - startTime) / 1000)] *)
Definition elapsedSeconds (now startTime : Z) : Z :=
  ((now - startTime) / 1000)%Z.

(** [elapsedSeconds >= (CHAT_DURATION_MS / 1000)]: the quotient on the
    right is not rounded, so this compares [1000 * elapsedSeconds] with
    [CHAT_DURATION_MS]. *)
Definition timeLimitReached (e : Env) (elapsed : Z) : bool :=
  (CHAT_DURATION_MS e <=? 1000 * elapsed)%Z.

(** [!content || !content.trim()] *)
Definition isBlank (content : option jsstring) : bool :=
  negb (truthy content) ||
  match content with
  | Some text => match trim text with [] => true | _ => false end
  | None => true
  end.

Definition textOf (content : option jsstring) : jsstring :=
  match content with Some text => text | None => [] end.

Definition isEmpty (s : jsstring) : bool :=
  match s with [] => true | _ => false end.

(** [POST /api/conversations/start]; [conversationId] is the draw of
    [uuidv4()], [now] the reading of the clock. *)
Definition conversationsStart (e : Env) (conversationId : jsstring)
    (now : Z) (participantId : option jsstring) (w : World)
    : Response * World :=
  if negb (truthy participantId) then
    (Failure 400 (Some validation_error), w)
  else
    match participantFiles w !! textOf participantId with
    | None => (Failure 404 (Some participant_not_found), w)
    | Some _ =>
        let conversationData :=
          {| id := conversationId;
             participantId := textOf participantId;
             startedAt := now;
             endedAt := None;
             durationSeconds := None;
             systemPrompt := Some SYSTEM_PROMPT;
             messages := [] |} in
        let w1 := (saveSession e conversationData w).2 in
        (Started conversationId,
         setActive conversationId
           {| ac_participantId := participantId;
              ac_startedAt := now;
              ac_lastActivity := Some now |} w1)
    end.

(** [POST /chat/start] of the fallback endpoints.  [freshParticipantId]
    and [conversationId] are the two draws of [uuidv4()]; [opening] is
    the result of importing [openingLine.js] and calling
    [openingLineFrom] on the profile, a module outside this embedding. *)
Definition chatStart (e : Env) (freshParticipantId conversationId : jsstring)
    (now : Z) (opening : Outcome jsstring) (userId : option jsstring)
    (w : World) : Response * World :=
  let participantId :=
    if truthy userId then textOf userId else freshParticipantId in
  let initial :=
    {| id := conversationId;
       participantId := participantId;
       startedAt := now;
       endedAt := None;
       durationSeconds := Some 0%Z;
       systemPrompt := None;
       messages := [] |} in
  let w1 := (saveSession e initial w).2 in
  let w2 :=
    setActive conversationId
      {| ac_participantId := None; ac_startedAt := now;
         ac_lastActivity := None |} w1 in
  match opening with
  | Thrown _ => (Failure 500 None, w2)
  | Returned line =>
      let greeted :=
        [{| role := assistant; content := line; timestamp := None;
            generated_summary := false |}] in
      (StartedWith conversationId greeted,
       (saveSession e (setMessages initial greeted) w2).2)
  end.

Section Handlers.
Context `{JSRuntime}.

(** The block both closing paths share: run the safety net when the
    loaded record names a participant, then take the message list of
    the record as it is on file afterwards; [held] is the list the
    handler holds in memory. *)
Definition ensureAndReload (e : Env) (summaryClock : Z)
    (conversationId : jsstring) (conversationData : Session)
    (held : list Message) (w : World) : World * list Message :=
  if isEmpty (participantId conversationData) then (w, held)
  else
    let w1 :=
      fallbackEnsureConversationSummary e summaryClock conversationId
        (participantId conversationData) w in
    (w1,
     match readConversation w1 conversationId with
     | Some updatedConversation => messages updatedConversation
     | None => held
     end).

(** [POST /api/conversations/:id/message].  [now] is the handler's
    [new Date()]; [summaryClock] and [replyClock] are the later
    readings that stamp the summary and the assistant's message. *)
Definition conversationsMessage (e : Env) (provider : ProviderResult)
    (random : nat) (now summaryClock replyClock : Z)
    (conversationId : jsstring) (content : option jsstring) (w : World)
    : Response * World :=
  if isBlank content then (Failure 400 (Some validation_error), w)
  else
    match activeConversations w !! conversationId with
    | None => (Failure 404 (Some conversation_not_found), w)
    | Some activeConv =>
        let startTime := ac_startedAt activeConv in
        let elapsed := elapsedSeconds now startTime in
        if timeLimitReached e elapsed then
          (Failure 410 (Some timeout), deleteActive conversationId w)
        else
          let userMessage :=
            {| role := user; content := trim (textOf content);
               timestamp := Some now; generated_summary := false |} in
          if shouldEndNow (textOf content) then
            match readConversation w conversationId with
            | None => (Failure 404 (Some data_error), w)
            | Some conversationData =>
                let held := messages conversationData ++ [userMessage] in
                let '(w1, kept) :=
                  ensureAndReload e summaryClock conversationId
                    conversationData held w in
                let finalMessage :=
                  {| role := assistant; content := FINAL_REPLY;
                     timestamp := Some replyClock;
                     generated_summary := false |} in
                let closed :=
                  setEnded
                    (setMessages conversationData (kept ++ [finalMessage]))
                    now elapsed in
                let w2 := (saveSession e closed w1).2 in
                (Reply FINAL_REPLY true, deleteActive conversationId w2)
            end
          else
            match readConversation w conversationId with
            | None => (Failure 404 (Some data_error), w)
            | Some conversationData =>
                let held := messages conversationData ++ [userMessage] in
                let assistantReply :=
                  generateAIResponse e provider random held
                    (systemPrompt conversationData) in
                let assistantMessage :=
                  {| role := assistant; content := assistantReply;
                     timestamp := Some replyClock;
                     generated_summary := false |} in
                let w1 :=
                  setActive conversationId
                    {| ac_participantId := ac_participantId activeConv;
                       ac_startedAt := ac_startedAt activeConv;
                       ac_lastActivity := Some now |} w in
                let w2 :=
                  (saveSession e
                     (setMessages conversationData
                        (held ++ [assistantMessage])) w1).2 in
                (Reply assistantReply false, w2)
            end
    end.

(** [POST /api/conversations/:id/end] *)
Definition conversationsEnd (e : Env) (now summaryClock : Z)
    (conversationId : jsstring) (w : World) : Response * World :=
  match activeConversations w !! conversationId with
  | None => (Failure 404 (Some conversation_not_found), w)
  | Some _ =>
      match readConversation w conversationId with
      | None => (Failure 404 (Some data_error), w)
      | Some conversationData =>
          let seconds :=
            elapsedSeconds now (startedAt conversationData) in
          let '(w1, kept) :=
            ensureAndReload e summaryClock conversationId conversationData
              (messages conversationData) w in
          let closed :=
            setEnded (setMessages conversationData kept) now seconds in
          let w2 := (saveSession e closed w1).2 in
          (Ended, deleteActive conversationId w2)
      end
  end.

End Handlers.

(** ** Start-up ([database.js], the tail of [server.js],
       [scripts/migrate-and-start.js]) *)

Module Startup.













End Startup.

(** ** The conversation shims of [global.db] *)

(** [global.db.conversations.save(userId, conversationId, messages)]:
    a record built anew around the messages, stamped with the clock. *)
Definition db_conversations_save (e : Env) (now : Z)
    (userId conversationId : jsstring) (messages : list Message)
    (w : World) : World :=
  (saveSession e
     {| id := conversationId;
        participantId := userId;
        startedAt := now;
        endedAt := None;
        durationSeconds := None;
        systemPrompt := None;
        messages := messages |} w).2.

(** [global.db.conversations.load(conversationId)] *)
Definition db_conversations_load (w : World) (conversationId : jsstring)
    : list Message :=
  match readConversation w conversationId with
  | Some c => messages c
  | None => []
  end.

(** [global.db.conversations.append(conversationId, message)] *)
Definition db_conversations_append (e : Env) (conversationId : jsstring)
    (message : Message) (w : World) : World :=
  match readConversation w conversationId with
  | None => w
  | Some c => (saveSession e (setMessages c (messages c ++ [message])) w).2
  end.

(** ** Message rows *)

(** A decimal numeral of a template literal, [`${index}`]. *)
Definition decimal (n : nat) : jsstring := lit (pretty n).

(** A row of the [message] table, as [saveSession] of [lib/dataAccess.js]
    builds it for [createMany]. *)
Record MessageRow := {
  row_id : jsstring;
  row_sessionId : jsstring;
  row_turn : nat;
  row_role : Role;
  row_content : jsstring;
  row_timestamp : Z;
}.

(** [`${sessionData.id}-msg-${index}`] *)
Definition messageId (sessionId : jsstring) (index : nat) : jsstring :=
  sessionId ++ lit "-msg-" ++ decimal index.

(** The callback of [sessionData.messages.map((msg, index) => ...)];
    [clock] is the reading of [new Date()] for a message without a
    timestamp. *)
Definition messageRow (clock : Z) (sessionId : jsstring) (index : nat)
    (msg : Message) : MessageRow :=
  {| row_id := messageId sessionId index;
     row_sessionId := sessionId;
     row_turn := index;
     row_role := role msg;
     row_content := content msg;
     row_timestamp :=
       match timestamp msg with Some t => t | None => clock end |}.

(** [sessionData.messages.map(...)] of [saveSession]. *)
Definition messageRows (clock : Z) (s : Session) : list MessageRow :=
  imap (messageRow clock (id s)) (messages s).

(** An entry of the list [getMessagesFromFiles] returns. *)
Record ExportedMessage := {
  message_id : jsstring;
  session_id : jsstring;
  participant_id : jsstring;
  turn_number : nat;
  exported_role : Role;
  exported_content : jsstring;
  message_timestamp : option Z;
  character_count : nat;
}.

(** The callback of [session.messages.forEach((msg, index) => ...)] in
    [getMessagesFromFiles]. *)
Definition exportedMessage (session : Session) (index : nat) (msg : Message)
    : ExportedMessage :=
  {| message_id := messageId (id session) index;
     session_id := id session;
     participant_id := participantId session;
     turn_number := index;
     exported_role := role msg;
     exported_content := content msg;
     message_timestamp := timestamp msg;
     character_count := length (content msg) |}.

(** [function getMessagesFromFiles()] of [database.js]; [listing] is the
    content of the conversation files in the order of the directory
    listing. *)
Definition getMessagesFromFiles (listing : list Session)
    : list ExportedMessage :=
  flat_map (fun session => imap (exportedMessage session) (messages session))
    listing.

(** ** Export helpers *)

(** The [str.replace] of [escapeCsv]: every quotation mark (code unit
    34) is replaced by two. *)
Definition doubleQuotes (str : jsstring) : jsstring :=
  flat_map (fun c => if c =? 34 then [34; 34] else [c]) str.

(** [function escapeCsv(str)], on a string. *)
Definition escapeCsv (str : jsstring) : jsstring :=
  if includes str (lit ",") || includes str [34] || includes str NL
  then [34] ++ doubleQuotes str ++ [34]
  else str.

(** ** The summary of the survey answer *)

Definition HEDGES : list jsstring :=
  [lit "I think"; lit "I believe"; lit "I feel"; lit "In my opinion";
   lit "I guess"; lit "Maybe"; lit "Perhaps"].

(** The alternatives of a group tried in order at the head of [s]; the
    remainder after the first that matches. *)
Fixpoint firstAlternative (alts : list jsstring) (s : jsstring)
    : option jsstring :=
  match alts with
  | [] => None
  | alt :: alts' =>
      match matchLiteral true alt s with
      | Some rest => Some rest
      | None => firstAlternative alts' s
      end
  end.

(** [s.replace(/^(I think|...|Perhaps),?\s*/i, '')]: after the hedge, an
    optional comma and the white space that follows go too. *)
Definition stripHedge (s : jsstring) : jsstring :=
  match firstAlternative HEDGES s with
  | Some rest =>
      trimStart (match rest with 44 :: rest' => rest' | _ => rest end)
  | None => s
  end.

(** [[.!?]] *)
Definition isSentenceEnd (c : N) : bool :=
  (c =? 46) || (c =? 33) || (c =? 63).

(** [s.split(/[.!?]+/)[0]] *)
Fixpoint firstSegment (s : jsstring) : jsstring :=
  match s with
  | [] => []
  | c :: s' => if isSentenceEnd c then [] else c :: firstSegment s'
  end.

(** [function generateFallbackSummary(text)] *)
Definition generateFallbackSummary (text : jsstring) : jsstring :=
  if isEmpty text || (length (trim text) =? 0)%nat then []
  else
    let trimmed := trim text in
    if (length trimmed <=? 50)%nat then trimmed
    else
      let cleaned := stripHedge trimmed in
      let firstSentence := trim (firstSegment cleaned) in
      if (10 <? length firstSentence)%nat then
        if match last firstSentence with
           | Some c => isSentenceEnd c
           | None => false
           end
        then firstSentence
        else firstSentence ++ lit "."
      else if (100 <? length trimmed)%nat then take 97 trimmed ++ lit "..."
      else trimmed.

(** ** Clearing all data *)

(** [async function isDatabaseAvailable()] of [database.js] in a
    running process: a client, and a store that answers. *)
Definition databaseAvailable (e : Env) : bool :=
  hasPrisma e && primaryStoreAnswers e.

(** [function clearFileStorage()]: every participant file and every
    conversation file is unlinked; the counts of both. *)
Definition clearFileStorage (w : World) : (nat * nat) * World :=
  ((size (participantFiles w), size (conversationFiles w)),
   {| conversationFiles := ∅;
      participantFiles := ∅;
      primaryStore := primaryStore w;
      activeConversations := activeConversations w |}).

(** [async function clearAllData()]: the [success] field of what it
    returns, absent ([None]) when the store is unavailable and the
    summary of [clearFileStorage] is returned as it is. *)
Definition clearAllData (e : Env) (w : World) : option bool * World :=
  if negb (databaseAvailable e) then (None, (clearFileStorage w).2)
  else
    (Some true,
     (clearFileStorage
        {| conversationFiles := conversationFiles w;
           participantFiles := participantFiles w;
           primaryStore := ∅;
           activeConversations := activeConversations w |}).2).

(** [DELETE /api/admin/clear-all-data]: the status of the response. *)
Definition adminClearAllData (e : Env) (confirm : option jsstring)
    (w : World) : N * World :=
  match confirm with
  | Some c =>
      if strEq c (lit "DELETE_ALL_DATA") then
        match clearAllData e w with
        | (Some true, w') => (200, w')
        | (_, w') => (500, w')
        end
      else (400, w)
  | None => (400, w)
  end.

(** ** A concrete runtime for the examples *)

(** The lower-case mapping on ASCII; the identity elsewhere. *)
Definition asciiToLowerCase (s : jsstring) : jsstring :=
  List.map (fun c => if (65 <=? c) && (c <=? 90) then c + 32 else c) s.

Definition asciiRuntime : JSRuntime := {| toLowerCase := asciiToLowerCase |}.

(** ** Vocabulary of the properties *)

(** [mid] is [pat] up to the case of its ASCII letters. *)
Definition sameIgnoringCase (mid pat : jsstring) : Prop :=
  List.map canonicalize mid = List.map canonicalize pat.

(** A word character in the sense of the claim about the termination
    phrase, as far as the detector goes: an ASCII letter, an ASCII
    digit or the underscore. *)
Definition asciiWordUnit (c : N) : Prop :=
  48 <= c <= 57 \/ 65 <= c <= 90 \/ 97 <= c <= 122 \/ c = 95.

(** There is a code unit at this place and it is a word character. *)
Definition wordUnitAt (o : option N) : Prop :=
  exists c, o = Some c /\ asciiWordUnit c.

(** The messages flagged as generated by the safety net. *)
Definition generatedSummaries (messages : list Message) : list Message :=
  List.filter generated_summary messages.

(** The code unit before the position that follows [pre]. *)
Definition unitBefore (prev : option N) (pre : jsstring) : option N :=
  match last pre with
  | Some c => Some c
  | None => prev
  end.

(** The sentences the fallback generator chooses from. *)
Definition fallbackReplies : list jsstring :=
  [GIBBERISH_REPLY; CONTROL_REPLY; SHORT_REPLY; FIRST_REPLY] ++
  earlyResponses ++ laterResponses.

(** The message the safety net appends to [messages]. *)
Definition synthesizedSummary `{JSRuntime} (participantId : jsstring)
    (w : World) (messages : list Message) (clock : Z) : Message :=
  {| role := assistant;
     content := summaryText (fallbackGenerateSummary w messages participantId);
     timestamp := Some clock;
     generated_summary := true |}.

(** The user's message as the message handler builds it. *)
Definition userTurn (now : Z) (body : option jsstring) : Message :=
  {| role := user; content := trim (textOf body);
     timestamp := Some now; generated_summary := false |}.

(** The assistant's message as the message handler builds it. *)
Definition assistantTurn (replyClock : Z) (reply : jsstring) : Message :=
  {| role := assistant; content := reply; timestamp := Some replyClock;
     generated_summary := false |}.

(** What the safety net leaves as the message list of session [s]:
    a list on which the detector finds a summary, which is the list of
    [s] itself or that list and one synthesized summary after it. *)
Definition summaryEnsured `{JSRuntime} (w : World) (s : Session) (clock : Z)
    (kept : list Message) : Prop :=
  fallbackHasExistingSummary kept = true /\
  (kept = messages s \/
   fallbackHasExistingSummary (messages s) = false /\
   kept = messages s ++
          [synthesizedSummary (participantId s) w (messages s) clock]).

(** [kept] carries a summary the detector finds, and as many messages
    flagged as generated as session [s] had, plus one when the detector
    found none in [s]. *)
Definition summaryPresent `{JSRuntime} (s : Session) (kept : list Message)
    : Prop :=
  fallbackHasExistingSummary kept = true /\
  length (List.filter generated_summary kept) =
  (length (List.filter generated_summary (messages s)) +
   if fallbackHasExistingSummary (messages s) then 0 else 1)%nat.

(** End timestamp and duration are both absent or both set. *)
Definition timingConsistent (s : Session) : Prop :=
  endedAt s = None /\ durationSeconds s = None \/
  is_Some (endedAt s) /\ is_Some (durationSeconds s).

(** Every record of both stores is consistent. *)
Definition storesConsistent (w : World) : Prop :=
  map_Forall (fun _ s => timingConsistent s) (conversationFiles w) /\
  map_Forall (fun _ s => timingConsistent s) (primaryStore w).

(** A fresh deployment: no conversation on file, none in the primary
    store, none tracked. *)
Definition fresh (w : World) : Prop :=
  conversationFiles w = ∅ /\ primaryStore w = ∅ /\
  activeConversations w = ∅.

(** A restart of the process: the tracker is lost, the stores stay. *)
Definition restart (w : World) : World :=
  {| conversationFiles := conversationFiles w;
     participantFiles := participantFiles w;
     primaryStore := primaryStore w;
     activeConversations := ∅ |}.

(** One operation of the lifecycle core (conversation start, fallback
    chat start, turn submission with or without the termination phrase,
    explicit end), or one restart of the process.  [fallbackMounted]
    says whether the process mounted the fallback endpoints, which it
    does when the import of the enhanced router fails. *)
Inductive Step `{JSRuntime} (fallbackMounted : bool) (e : Env)
    : World -> World -> Prop :=
  | step_start conversationId now participantId w :
      Step fallbackMounted e w
        (conversationsStart e conversationId now participantId w).2
  | step_chatStart freshParticipantId conversationId now opening userId w :
      fallbackMounted = true ->
      Step fallbackMounted e w
        (chatStart e freshParticipantId conversationId now opening userId w).2
  | step_message provider random now summaryClock replyClock conversationId
      body w :
      Step fallbackMounted e w
        (conversationsMessage e provider random now summaryClock replyClock
           conversationId body w).2
  | step_end now summaryClock conversationId w :
      Step fallbackMounted e w
        (conversationsEnd e now summaryClock conversationId w).2
  | step_restart w :
      Step fallbackMounted e w (restart w).

(** The worlds that a fresh deployment gets into through these
    operations. *)
Inductive Reachable `{JSRuntime} (fallbackMounted : bool) (e : Env)
    : World -> Prop :=
  | reach_fresh w : fresh w -> Reachable fallbackMounted e w
  | reach_step w w' :
      Reachable fallbackMounted e w -> Step fallbackMounted e w w' ->
      Reachable fallbackMounted e w'.

(** Every conversation file holds the record of the id it is named
    after, and there is no file at all when the process does not write
    them. *)
Definition filesInOrder (e : Env) (w : World) : Prop :=
  map_Forall (fun k s => id s = k) (conversationFiles w) /\
  (writesFile e = false -> conversationFiles w = ∅).

(** ** Vocabulary of the further properties *)

(** The user messages the summary generator reads: longer than ten code
    units once trimmed, and without the termination phrase. *)
Definition qualifies `{JSRuntime} (msg : Message) : bool :=
  isUser (role msg) &&
  match content msg with [] => false | _ => true end &&
  (10 <? length (trim (content msg)))%nat &&
  negb (includes (toLowerCase (content msg)) (lit "end the chat")).

(** One of the words occurs in a message the generator reads. *)
Definition themeRaised `{JSRuntime} (words : list jsstring)
    (messages : list Message) : bool :=
  existsb (mentions words) (List.filter qualifies messages).

Definition EVIDENCE_WORDS : list jsstring :=
  [lit "evidence"; lit "research"; lit "study"; lit "data"].
Definition PERSONAL_WORDS : list jsstring :=
  [lit "experience"; lit "personal"; lit "saw"; lit "noticed"; lit "felt"].
Definition SOCIAL_WORDS : list jsstring :=
  [lit "people"; lit "family"; lit "friend"; lit "others"].
Definition MEDIA_WORDS : list jsstring :=
  [lit "media"; lit "news"; lit "article"; lit "tv"].
Definition CHANGE_WORDS : list jsstring :=
  [lit "change"; lit "shift"; lit "different"; lit "realized"].

Definition EVIDENCE_POINT : jsstring :=
  lit "You discussed the role of evidence and research in shaping your views".
Definition PERSONAL_POINT : jsstring :=
  lit "You shared personal experiences that influenced your thinking".
Definition SOCIAL_POINT : jsstring :=
  lit "You talked about how other people influenced your perspective".
Definition MEDIA_POINT : jsstring :=
  lit "You mentioned media sources that affected your views".
Definition CHANGE_POINT : jsstring :=
  lit "You described the process of how your beliefs evolved".
Definition FIRST_FILLER : jsstring :=
  lit "You engaged in a conversation about your climate change belief journey".
Definition SECOND_FILLER : jsstring :=
  lit "You shared your perspective on what influences belief change".

(** The assembly of the points from the profile point and the five theme
    flags: the flagged bullets in their order, the fillers up to two
    points, the cut at five. *)
Definition assemblePoints {A} (profile : list A)
    (evidence personal social media change_process : bool)
    (EV PE SO ME CH F1 F2 : A) : list A :=
  let summaryPoints :=
    profile ++
    (if evidence then [EV] else []) ++
    (if personal then [PE] else []) ++
    (if social then [SO] else []) ++
    (if media then [ME] else []) ++
    (if change_process then [CH] else []) in
  let padded :=
    if (length summaryPoints <? 2)%nat then
      let once := summaryPoints ++ [F1] in
      if (length once <? 2)%nat then once ++ [F2] else once
    else summaryPoints in
  take 5 padded.

(** The star and the hyphen, the two single code units the detector
    looks for. *)
Definition isStarOrHyphen (c : N) : bool := (c =? 42) || (c =? 45).

(** The reading of a field of a CSV record: a field that opens with a
    quotation mark stands for what is between that mark and the last
    code unit, every pair of marks read as one; any other field stands
    for itself. *)
Fixpoint undoubleQuotes (s : jsstring) : jsstring :=
  match s with
  | [] => []
  | c :: s' =>
      match s' with
      | d :: s'' =>
          if (c =? 34) && (d =? 34) then 34 :: undoubleQuotes s''
          else c :: undoubleQuotes s'
      | [] => [c]
      end
  end.

Definition readCsvField (field : jsstring) : jsstring :=
  match field with
  | 34 :: rest => undoubleQuotes (removelast rest)
  | _ => field
  end.

(** A code unit of a decimal numeral. *)
Definition isDigit (c : N) : bool := (48 <=? c) && (c <=? 57).

(** ** Worlds and environments of the examples *)

Definition devEnv : Env :=
  {| NODE_ENV := Some (lit "development");
     DATABASE_URL := None;
     OPENAI_API_KEY := Some (lit "sk-test");
     CHAT_DURATION_MS := 300000;
     prismaClientConstructs := true;
     primaryStoreAnswers := true |}.

Definition emptyWorld : World :=
  {| conversationFiles := ∅; participantFiles := ∅; primaryStore := ∅;
     activeConversations := ∅ |}.

Definition userSays (text : string) (at_ : Z) : Message :=
  {| role := user; content := lit text; timestamp := Some at_;
     generated_summary := false |}.

Definition assistantSays (text : string) (at_ : Z) : Message :=
  {| role := assistant; content := lit text; timestamp := Some at_;
     generated_summary := false |}.

(** A fresh deployment with participant "p1" enrolled. *)
Definition enrolledWorld : World :=
  {| conversationFiles := ∅;
     participantFiles :=
       {[ lit "p1" := {| mind_change_direction := Some (lit "natural_to_human");
                         mind_change_other_text := None |} ]};
     primaryStore := ∅;
     activeConversations := ∅ |}.

(** The world after participant "p1" started conversation "c1" at
    instant 1000. *)
Definition startedWorld : World :=
  (conversationsStart devEnv (lit "c1") 1000 (Some (lit "p1"))
     enrolledWorld).2.

(** The record of session "c1" of participant "p1", started at instant
    1000, after one exchange. *)
Definition openSession : Session :=
  {| id := lit "c1"; participantId := lit "p1"; startedAt := 1000;
     endedAt := None; durationSeconds := None;
     systemPrompt := Some SYSTEM_PROMPT;
     messages :=
       [userSays "I read a lot of research about the climate" 2000;
        assistantSays "What did you take from it?" 3000] |}.

Definition openWorld : World :=
  (conversationsMessage (H := asciiRuntime) devEnv
     (Completed (Some (lit "What did you take from it?"))) 0
     2000 2001 3000 (lit "c1")
     (Some (lit "I read a lot of research about the climate"))
     startedWorld).2.

(** The tracker's entry for "c1" in [openWorld]. *)
Definition openConv : ActiveConversation :=
  {| ac_participantId := Some (lit "p1"); ac_startedAt := 1000;
     ac_lastActivity := Some 2000%Z |}.

(** A limit of one and a half seconds. *)
Definition shortEnv : Env :=
  {| NODE_ENV := Some (lit "development");
     DATABASE_URL := None;
     OPENAI_API_KEY := Some (lit "sk-test");
     CHAT_DURATION_MS := 1500;
     prismaClientConstructs := true;
     primaryStoreAnswers := true |}.

(** Production, the primary store configured, the store not answering. *)
Definition productionStoreDown : Env :=
  {| NODE_ENV := Some (lit "production");
     DATABASE_URL := Some (lit "postgresql://db.internal/study");
     OPENAI_API_KEY := Some (lit "sk-test");
     CHAT_DURATION_MS := 300000;
     prismaClientConstructs := true;
     primaryStoreAnswers := false |}.





(** The open session after a second exchange, in which the reply of
    the provider holds two hyphens used as dashes. *)
Definition markedWorld : World :=
  (conversationsMessage (H := asciiRuntime) devEnv
     (Completed (Some (lit "I see - and what did your family say - if anything?")))
     0 4000 4001 4002 (lit "c1")
     (Some (lit "It was mostly the research"))
     openWorld).2.

(** One more exchange with a plain reply, at instant [at_]. *)
Definition plainExchange (at_ : Z) (w : World) : World :=
  (conversationsMessage (H := asciiRuntime) devEnv
     (Completed (Some (lit "Could you tell me more about that?")))
     0 at_ (at_ + 1) (at_ + 2) (lit "c1")
     (Some (lit "My family talked about it a lot"))
     w).2.

(** [markedWorld] after four more exchanges with plain replies: the
    reply with the dashes is the fifth last assistant message. *)
Definition crowdedWorld : World :=
  plainExchange 8000 (plainExchange 7000 (plainExchange 6000
    (plainExchange 5000 markedWorld))).

(** * Properties *)

(** ** Evaluations *)

Example trim_strips_both_ends : trim (lit "  hi there  ") = lit "hi there".
Proof. reflexivity. Qed.

Example shouldEndNow_evaluated :
  shouldEndNow (lit "END THE CHAT!") = true /\
  shouldEndNow (lit "  end The Chat  ") = true /\
  shouldEndNow (lit "pretend the chat") = false /\
  shouldEndNow (lit "end the chatter") = false /\
  shouldEndNow (lit "end  the chat") = false.
Proof. repeat split. Qed.

Example detector_evaluated :
  fallbackHasExistingSummary (H := asciiRuntime)
    [assistantSays "- one - two" 1] = true /\
  fallbackHasExistingSummary (H := asciiRuntime)
    [assistantSays "just - one" 1] = false /\
  fallbackHasExistingSummary (H := asciiRuntime)
    [assistantSays "Here is a Summary" 1] = true /\
  fallbackHasExistingSummary (H := asciiRuntime)
    [userSays "summary" 1] = false /\
  looksLikeSummary (H := asciiRuntime) (assistantTurn 0 FINAL_REPLY) = false.
Proof. repeat split. Qed.

Example summary_points_evaluated :
  fallbackGenerateSummary (H := asciiRuntime) enrolledWorld
    [userSays "I saw some research and my family talked about it" 1]
    (lit "p1") =
  [lit "You described your belief change: From thinking climate change is natural, to thinking it is human-caused";
   lit "You discussed the role of evidence and research in shaping your views";
   lit "You shared personal experiences that influenced your thinking";
   lit "You talked about how other people influenced your perspective"].
Proof. vm_compute. reflexivity. Qed.

Example isGibberish_evaluated :
  isGibberish (lit "aaaaaa") = true /\
  isGibberish (lit "abcabcabc") = true /\
  isGibberish (lit "xkcd") = true /\
  isGibberish (lit "ok") = false /\
  isGibberish (lit "i changed my mind") = true /\
  isGibberish (lit "what changed my mind was the data") = false.
Proof. vm_compute. repeat split. Qed.

(** The categories the [catch] of the message handler can answer with. *)
Lemma classifyError_categories message :
  In (classifyError message)
    [connection_timeout; network_error; rate_limit; server_error].
Proof.
  unfold classifyError.
  repeat match goal with
  | |- context [if ?b then _ else _] => destruct b
  end; simpl; tauto.
Qed.

(** ** The termination phrase *)

Lemma matchLiteral_ci_spec pat s rest :
  matchLiteral true pat s = Some rest <->
  exists mid, s = mid ++ rest /\ sameIgnoringCase mid pat.
Proof.
  revert s. induction pat as [|p pat IH]; intros s; simpl.
  - split.
    + intros [= ->]. exists []. split; reflexivity.
    + intros (mid & -> & Hm). destruct mid; [reflexivity | discriminate Hm].
  - destruct s as [|c s].
    + split; [discriminate|].
      intros (mid & Hs & Hm). destruct mid; [discriminate Hm | discriminate Hs].
    + destruct (N.eqb_spec (canonicalize p) (canonicalize c)) as [Hpc|Hpc].
      * rewrite IH. split.
        -- intros (mid & -> & Hm). exists (c :: mid). split; [reflexivity|].
           unfold sameIgnoringCase in *. simpl. congruence.
        -- intros (mid & Hs & Hm). destruct mid as [|c' mid]; [discriminate Hm|].
           injection Hs as <- ->. injection Hm as _ Hm. exists mid. auto.
      * split; [discriminate|].
        intros (mid & Hs & Hm). destruct mid as [|c' mid]; [discriminate Hm|].
        injection Hs as <- ->. injection Hm as Hc _. congruence.
Qed.

Lemma canonicalize_letter c p :
  canonicalize c = canonicalize p -> isAsciiLetter p = true ->
  isWordChar c = true.
Proof.
  unfold canonicalize, isAsciiLetter, isWordChar.
  repeat match goal with
  | |- context [?a <=? ?b] => destruct (N.leb_spec a b)
  | |- context [?a =? ?b] => destruct (N.eqb_spec a b)
  end; simpl; intros; try reflexivity; try discriminate; lia.
Qed.

Lemma sameIgnoringCase_length mid pat :
  sameIgnoringCase mid pat -> length mid = length pat.
Proof.
  intros Hm. apply (f_equal (@length N)) in Hm.
  by rewrite !length_map in Hm.
Qed.

(** A match of the phrase starts and ends on a word character. *)
Lemma phrase_match_ends mid post :
  sameIgnoringCase mid END_PHRASE ->
  isWordAt (head (mid ++ post)) = true /\
  isWordAt (last (take (length END_PHRASE) (mid ++ post))) = true.
Proof.
  intros Hm. pose proof (sameIgnoringCase_length _ _ Hm) as Hlen.
  rewrite take_app_length' by (symmetry; exact Hlen).
  do 13 (destruct mid as [|? mid]; try discriminate Hlen).
  unfold sameIgnoringCase in Hm. simpl in Hm.
  injection Hm as He _ _ _ _ _ _ _ _ _ _ Ht.
  split; simpl.
  - eapply canonicalize_letter; [exact He | reflexivity].
  - eapply canonicalize_letter; [exact Ht | reflexivity].
Qed.

Lemma matchWordAt_phrase prev s :
  matchWordAt true prev s END_PHRASE = true <->
  exists mid post, s = mid ++ post /\ sameIgnoringCase mid END_PHRASE /\
    isWordAt prev = false /\ isWordAt (head post) = false.
Proof.
  unfold matchWordAt, wordBoundary. split.
  - intros Hb. apply andb_prop in Hb as [Hb1 Hb2].
    destruct (matchLiteral true END_PHRASE s) as [rest|] eqn:Hml;
      [|discriminate].
    apply matchLiteral_ci_spec in Hml as (mid & -> & Hm).
    destruct (phrase_match_ends mid rest Hm) as [Hh Hl].
    rewrite Hh in Hb1. rewrite Hl in Hb2.
    exists mid, rest. repeat split; auto.
    + by destruct (isWordAt prev).
    + by destruct (isWordAt (head rest)).
  - intros (mid & post & -> & Hm & Hp & Hq).
    destruct (phrase_match_ends mid post Hm) as [Hh Hl].
    assert (matchLiteral true END_PHRASE (mid ++ post) = Some post) as ->.
    { apply matchLiteral_ci_spec. eauto. }
    by rewrite Hh, Hp, Hl, Hq.
Qed.

Lemma testWords_phrase prev s :
  testWords true [END_PHRASE] prev s = true <->
  exists pre mid post, s = pre ++ mid ++ post /\
    sameIgnoringCase mid END_PHRASE /\
    isWordAt (unitBefore prev pre) = false /\
    isWordAt (head post) = false.
Proof.
  revert prev. induction s as [|c s IH]; intros prev.
  - simpl. rewrite !orb_false_r. rewrite matchWordAt_phrase. split.
    + intros (mid & post & Hs & Hm & Hp & Hq). exists [], mid, post. auto.
    + intros (pre & mid & post & Hs & Hm & Hp & Hq).
      symmetry in Hs. apply app_eq_nil in Hs as [-> Hs].
      exists mid, post. auto.
  - cbn [testWords existsb]. rewrite orb_false_r, orb_true_iff.
    rewrite matchWordAt_phrase, IH. split.
    + intros [(mid & post & Hs & Hm & Hp & Hq)
             |(pre & mid & post & Hs & Hm & Hp & Hq)].
      * exists [], mid, post. auto.
      * exists (c :: pre), mid, post. rewrite Hs. repeat split; auto.
        unfold unitBefore in *. rewrite last_cons.
        by destruct (last pre).
    + intros (pre & mid & post & Hs & Hm & Hp & Hq).
      destruct pre as [|c' pre].
      * left. exists mid, post. auto.
      * right. injection Hs as <- ->. exists pre, mid, post.
        repeat split; auto.
        unfold unitBefore in *. rewrite last_cons in Hp.
        by destruct (last pre).
Qed.

(** Folding the case with the lower-case mapping on ASCII gives the
    same relation to a pattern of lower-case letters and spaces as the
    canonicalization of the matcher. *)
Lemma canonicalize_fold c p :
  97 <= p <= 122 \/ p = 32 ->
  canonicalize c = canonicalize p <->
  (if (65 <=? c) && (c <=? 90) then c + 32 else c) = p.
Proof.
  unfold canonicalize. intros Hp.
  repeat match goal with
  | |- context [?a <=? ?b] => destruct (N.leb_spec a b)
  end; simpl; lia.
Qed.

Lemma sameIgnoringCase_fold mid pat :
  Forall (fun p => 97 <= p <= 122 \/ p = 32) pat ->
  sameIgnoringCase mid pat <-> asciiToLowerCase mid = pat.
Proof.
  unfold sameIgnoringCase, asciiToLowerCase. intros Hpat. revert mid.
  induction Hpat as [|p pat Hp Hpat IH]; intros [|c mid]; simpl;
    try (split; discriminate); [tauto|].
  split.
  - intros [= Hc Hm]. f_equal; [by apply canonicalize_fold | by apply IH].
  - intros [= Hc Hm]. f_equal; [by apply canonicalize_fold | by apply IH].
Qed.

Lemma END_PHRASE_letters :
  Forall (fun p => 97 <= p <= 122 \/ p = 32) END_PHRASE.
Proof. repeat constructor; cbn; lia. Qed.

Lemma isWordChar_unit c : isWordChar c = true <-> asciiWordUnit c.
Proof.
  unfold isWordChar, asciiWordUnit.
  rewrite !orb_true_iff, !andb_true_iff, !N.leb_le, N.eqb_eq. tauto.
Qed.

Lemma isWordAt_unit o : isWordAt o = false <-> ~ wordUnitAt o.
Proof.
  unfold wordUnitAt. destruct o as [c|]; simpl.
  - rewrite <- not_true_iff_false, isWordChar_unit. split.
    + intros Hc (c' & [= <-] & Hu). by apply Hc.
    + intros Hc Hu. apply Hc. eauto.
  - split; [|reflexivity]. intros _ (c & Hc & _). discriminate Hc.
Qed.

(** The detector, in terms that do not go through the matcher. *)
Lemma shouldEndNow_spec text :
  shouldEndNow text = true <->
  exists pre mid post,
    trim text = pre ++ mid ++ post /\
    asciiToLowerCase mid = END_PHRASE /\
    ~ wordUnitAt (last pre) /\
    ~ wordUnitAt (head post).
Proof.
  assert (Hcore :
    shouldEndNow text = true <->
    exists pre mid post,
      trim text = pre ++ mid ++ post /\
      sameIgnoringCase mid END_PHRASE /\
      isWordAt (last pre) = false /\
      isWordAt (head post) = false).
  { destruct text as [|c text].
    - simpl. split; [discriminate|].
      intros (pre & mid & post & Hs & Hm & _).
      apply sameIgnoringCase_length in Hm.
      change (trim []) with (@nil N) in Hs.
      symmetry in Hs. apply app_eq_nil in Hs as [_ Hs].
      apply app_eq_nil in Hs as [-> _]. discriminate Hm.
    - unfold shouldEndNow. rewrite testWords_phrase.
      split; intros (pre & mid & post & Hs & Hm & Hp & Hq);
        exists pre, mid, post; repeat split; auto;
        unfold unitBefore in *; by destruct (last pre). }
  rewrite Hcore.
  split; intros (pre & mid & post & Hs & Hm & Hp & Hq);
    exists pre, mid, post; (split; [exact Hs|]).
  - rewrite <- (sameIgnoringCase_fold _ _ END_PHRASE_letters).
    rewrite <- !isWordAt_unit. auto.
  - rewrite (sameIgnoringCase_fold _ _ END_PHRASE_letters).
    rewrite !isWordAt_unit. auto.
Qed.

(** The phrase directly after a letter outside ASCII: in [caféend the
    chat] the phrase starts in the middle of a word, the letter before
    it being the e with an acute accent (code unit 233), and the
    detector triggers; so it does after a Cyrillic letter (code unit
    1076).  The boundary of the regular expression knows the ASCII
    word characters only. *)
Lemma shouldEndNow_inside_a_word :
  shouldEndNow (lit "caf" ++ [233] ++ lit "end the chat") = true /\
  shouldEndNow ([1076] ++ lit "end the chat") = true /\
  shouldEndNow (lit "end the chat" ++ [233]) = true.
Proof. repeat split. Qed.

(** C6 (as amended). The termination-phrase detector answers [true]
    exactly when the trimmed input contains the phrase, in any mix of
    upper and lower case of its letters, with no ASCII letter, ASCII
    digit or underscore directly before it and none directly after it.
    "please end the chat now" triggers, in lower case, in upper case
    and in mixed case; "endings of the chat show" and "pretend the
    chat" do not. *)
Theorem shouldEndNow_word_boundaries :
  (forall text : jsstring,
     shouldEndNow text = true <->
     exists pre mid post,
       trim text = pre ++ mid ++ post /\
       asciiToLowerCase mid = lit "end the chat" /\
       ~ wordUnitAt (last pre) /\
       ~ wordUnitAt (head post)) /\
  shouldEndNow (lit "please end the chat now") = true /\
  shouldEndNow (lit "PLEASE END THE CHAT NOW") = true /\
  shouldEndNow (lit "Please End the Chat now") = true /\
  shouldEndNow (lit "endings of the chat show") = false /\
  shouldEndNow (lit "pretend the chat") = false.
Proof.
  split; [intros text; apply shouldEndNow_spec|].
  repeat split.
Qed.

(** ** Validation and admission *)

Lemma trimStart_whitespace text :
  forallb isWhiteSpace text = true -> trimStart text = [].
Proof.
  induction text as [|c text IH]; simpl; [reflexivity|].
  intros Hall. apply andb_prop in Hall as [-> Hall]. auto.
Qed.

Lemma trim_whitespace text :
  forallb isWhiteSpace text = true -> trim text = [].
Proof.
  intros Hall. unfold trim. by rewrite (trimStart_whitespace _ Hall).
Qed.

Lemma isBlank_missing_or_whitespace (content : option jsstring) :
  content = None \/
  (exists text, content = Some text /\ forallb isWhiteSpace text = true) ->
  isBlank content = true.
Proof.
  intros [->|(text & -> & Hall)]; [reflexivity|].
  unfold isBlank. rewrite (trim_whitespace _ Hall). apply orb_true_r.
Qed.

Section Admission.
Context `{JSRuntime}.
Variables (e : Env) (provider : ProviderResult) (random : nat).
Variables (now summaryClock replyClock : Z).

Lemma message_blank conversationId content w :
  isBlank content = true ->
  conversationsMessage e provider random now summaryClock replyClock
    conversationId content w = (Failure 400 (Some validation_error), w).
Proof. intros Hb. unfold conversationsMessage. by rewrite Hb. Qed.

Lemma message_untracked conversationId content w :
  isBlank content = false ->
  activeConversations w !! conversationId = None ->
  conversationsMessage e provider random now summaryClock replyClock
    conversationId content w =
  (Failure 404 (Some conversation_not_found), w).
Proof.
  intros Hb Hnone. unfold conversationsMessage. by rewrite Hb, Hnone.
Qed.

Lemma message_expired conversationId content w activeConv :
  isBlank content = false ->
  activeConversations w !! conversationId = Some activeConv ->
  timeLimitReached e (elapsedSeconds now (ac_startedAt activeConv)) = true ->
  conversationsMessage e provider random now summaryClock replyClock
    conversationId content w =
  (Failure 410 (Some timeout), deleteActive conversationId w).
Proof.
  intros Hb Hsome Hlim. unfold conversationsMessage.
  by rewrite Hb, Hsome, Hlim.
Qed.

End Admission.

(** C10. A submission whose content is missing or consists of white
    space only is answered with the validation error and leaves the
    world as it was, whatever the tracker holds for the conversation
    id, so also when the id is not tracked, where a valid text would get
    the not-found error. *)
Theorem validation_precedes_admission `{JSRuntime}
    (e : Env) (provider : ProviderResult) (random : nat)
    (now summaryClock replyClock : Z) (conversationId : jsstring)
    (content : option jsstring) (w : World) :
  content = None \/
  (exists text, content = Some text /\ forallb isWhiteSpace text = true) ->
  conversationsMessage e provider random now summaryClock replyClock
    conversationId content w = (Failure 400 (Some validation_error), w) /\
  (conversationsMessage e provider random now summaryClock replyClock
     conversationId content w).1 <> Failure 404 (Some conversation_not_found).
Proof.
  intros Hc. apply isBlank_missing_or_whitespace in Hc.
  rewrite message_blank by exact Hc. split; [reflexivity | discriminate].
Qed.

Lemma validation_precedes_admission_witness :
  activeConversations emptyWorld !! lit "c1" = None /\
  conversationsMessage (H := asciiRuntime) devEnv TimedOut 0 5000 5001 5002
    (lit "c1") (Some (lit "   ")) emptyWorld =
  (Failure 400 (Some validation_error), emptyWorld).
Proof.
  split; [apply lookup_empty|].
  apply (validation_precedes_admission (H := asciiRuntime)).
  right. exists (lit "   "). split; reflexivity.
Defined.

(** C5. A submission for a conversation id that the tracker does not
    hold, never opened or already closed, leaves the world as it was
    whatever its text is: no file, no record of the primary store and
    no tracker entry is written; and with a text that is not empty (once
    trimmed, which is the emptiness the handler tests) it is answered
    with the not-found error. *)
Theorem unknown_session_not_found `{JSRuntime}
    (e : Env) (provider : ProviderResult) (random : nat)
    (now summaryClock replyClock : Z) (conversationId : jsstring)
    (content : option jsstring) (w : World) :
  activeConversations w !! conversationId = None ->
  let result :=
    conversationsMessage e provider random now summaryClock replyClock
      conversationId content w in
  result.2 = w /\
  (isBlank content = false ->
   result.1 = Failure 404 (Some conversation_not_found)).
Proof.
  intros Hnone result. subst result.
  destruct (isBlank content) eqn:Hb.
  - rewrite message_blank by exact Hb. split; [reflexivity | discriminate].
  - rewrite message_untracked by assumption. split; reflexivity.
Qed.

Lemma unknown_session_not_found_witness :
  conversationsMessage (H := asciiRuntime) devEnv TimedOut 0 5000 5001 5002
    (lit "c9") (Some (lit "hello there")) startedWorld =
  (Failure 404 (Some conversation_not_found), startedWorld).
Proof.
  destruct (unknown_session_not_found (H := asciiRuntime) devEnv TimedOut 0
    5000 5001 5002 (lit "c9") (Some (lit "hello there")) startedWorld)
    as [Hworld Hresponse].
  - vm_compute. reflexivity.
  - specialize (Hresponse eq_refl).
    destruct (conversationsMessage (H := asciiRuntime) devEnv TimedOut 0
                5000 5001 5002 (lit "c9") (Some (lit "hello there"))
                startedWorld) as [response world].
    cbn [fst snd] in *. by rewrite Hworld, Hresponse.
Defined.

(** ** The time limit *)

(** For a limit of whole seconds, the handler's test on whole elapsed
    seconds is the test on elapsed milliseconds. *)
Lemma timeLimitReached_whole_seconds (e : Env) (now startTime : Z) :
  (CHAT_DURATION_MS e mod 1000 = 0)%Z ->
  timeLimitReached e (elapsedSeconds now startTime) = true <->
  (CHAT_DURATION_MS e <= now - startTime)%Z.
Proof.
  intros Hmod. unfold timeLimitReached, elapsedSeconds.
  rewrite Z.leb_le.
  pose proof (Z.div_mod (now - startTime) 1000 ltac:(lia)) as Hd.
  pose proof (Z.mod_pos_bound (now - startTime) 1000 ltac:(lia)) as Hb.
  pose proof (Z.div_mod (CHAT_DURATION_MS e) 1000 ltac:(lia)) as Hl.
  rewrite Hmod in Hl. lia.
Qed.

(** With a limit of 1500 ms, a submission 1600 ms after the start is not
    timed out: one whole second has elapsed, and the handler compares
    that with 1.5.  The session stays tracked and the turn is answered. *)
Lemma elapsed_past_limit_not_timed_out :
  activeConversations openWorld !! lit "c1" = Some openConv /\
  (CHAT_DURATION_MS shortEnv <= 2600 - ac_startedAt openConv)%Z /\
  (conversationsMessage (H := asciiRuntime) shortEnv TimedOut 0
     2600 2601 2602 (lit "c1") (Some (lit "hello there")) openWorld).1
  = Reply (pickRandom 0 earlyResponses) false /\
  is_Some (activeConversations
    (conversationsMessage (H := asciiRuntime) shortEnv TimedOut 0
       2600 2601 2602 (lit "c1") (Some (lit "hello there")) openWorld).2
    !! lit "c1").
Proof.
  split; [vm_compute; reflexivity|].
  split; [simpl; lia|].
  split; [vm_compute; reflexivity|].
  vm_compute. eexists. reflexivity.
Qed.

(** C4 (as amended). A submission with a valid text on a tracked session
    whose whole elapsed seconds, in milliseconds, reach the configured
    limit is answered with the timeout error (status 410, not the
    not-found error), the stores are left as they were and the id is
    evicted from the tracker; every later submission with a valid text
    to the same id, made on the resulting world, is answered with the
    not-found error. *)
Theorem expired_session_times_out `{JSRuntime}
    (e : Env) (provider : ProviderResult) (random : nat)
    (now summaryClock replyClock : Z) (conversationId : jsstring)
    (content : option jsstring) (w : World)
    (activeConv : ActiveConversation) :
  isBlank content = false ->
  activeConversations w !! conversationId = Some activeConv ->
  (CHAT_DURATION_MS e <=
   1000 * elapsedSeconds now (ac_startedAt activeConv))%Z ->
  let result :=
    conversationsMessage e provider random now summaryClock replyClock
      conversationId content w in
  result.1 = Failure 410 (Some timeout) /\
  result.1 <> Failure 404 (Some conversation_not_found) /\
  activeConversations result.2 !! conversationId = None /\
  conversationFiles result.2 = conversationFiles w /\
  primaryStore result.2 = primaryStore w /\
  forall provider' random' now' summaryClock' replyClock' content',
    isBlank content' = false ->
    conversationsMessage e provider' random' now' summaryClock' replyClock'
      conversationId content' result.2 =
    (Failure 404 (Some conversation_not_found), result.2).
Proof.
  intros Hb Hsome Hlim result.
  assert (Hexp : timeLimitReached e
            (elapsedSeconds now (ac_startedAt activeConv)) = true).
  { unfold timeLimitReached. by apply Z.leb_le. }
  subst result. rewrite (message_expired _ _ _ _ _ _ _ _ _ _ Hb Hsome Hexp).
  cbn [fst snd].
  assert (Hgone : activeConversations (deleteActive conversationId w)
                    !! conversationId = None) by apply lookup_delete_eq.
  repeat split; try done.
  intros. by apply message_untracked.
Qed.

Lemma expired_session_times_out_witness :
  (conversationsMessage (H := asciiRuntime) devEnv TimedOut 0
     301000 301001 301002 (lit "c1") (Some (lit "hello there")) openWorld).1
  = Failure 410 (Some timeout).
Proof.
  refine (proj1 (expired_session_times_out (H := asciiRuntime) devEnv TimedOut
    0 301000 301001 301002 (lit "c1") (Some (lit "hello there")) openWorld
    openConv _ _ _)).
  - reflexivity.
  - vm_compute. reflexivity.
  - vm_compute. discriminate.
Defined.

(** ** The storage gateway *)

Lemma saveSession_files e s w :
  conversationFiles (saveSession e s w).2 =
  if writesFile e then <[id s := s]> (conversationFiles w)
  else conversationFiles w.
Proof. reflexivity. Qed.

Lemma saveSession_primary e s w :
  primaryStore (saveSession e s w).2 =
  if writesPrimary e then <[id s := s]> (primaryStore w)
  else primaryStore w.
Proof. reflexivity. Qed.

Lemma saveSession_active e s w :
  activeConversations (saveSession e s w).2 = activeConversations w.
Proof. reflexivity. Qed.

Lemma saveSession_participants e s w :
  participantFiles (saveSession e s w).2 = participantFiles w.
Proof. reflexivity. Qed.

Lemma saveSession_read e s w :
  writesFile e = true ->
  readConversation (saveSession e s w).2 (id s) = Some s.
Proof.
  intros Hf. unfold readConversation. rewrite saveSession_files, Hf.
  apply lookup_insert_eq.
Qed.

(** ** Reachable worlds *)

Lemma saveSession_inOrder e s w :
  filesInOrder e w -> filesInOrder e (saveSession e s w).2.
Proof.
  intros [Hown Hnone]. split; cbn.
  - destruct (writesFile e); [|done].
    by apply map_Forall_insert_2.
  - intros Hf. rewrite Hf. auto.
Qed.

Lemma fresh_inOrder e w : fresh w -> filesInOrder e w.
Proof.
  intros (Hfiles & _ & _). split; rewrite Hfiles; [|done].
  apply map_Forall_empty.
Qed.

Lemma fresh_consistent w : fresh w -> storesConsistent w.
Proof.
  intros (Hfiles & Hprimary & _). split; [rewrite Hfiles | rewrite Hprimary];
    apply map_Forall_empty.
Qed.

Section ReachableWorlds.
Context `{JSRuntime}.

Lemma ensure_inOrder e clock conversationId participantId w :
  filesInOrder e w ->
  filesInOrder e
    (fallbackEnsureConversationSummary e clock conversationId
       participantId w).
Proof.
  intros Hw. unfold fallbackEnsureConversationSummary.
  destruct (readConversation w conversationId) as [s|]; [|done].
  destruct (fallbackHasExistingSummary (messages s)); [done|].
  by apply saveSession_inOrder.
Qed.

Lemma ensureAndReload_inOrder e clock conversationId s held w :
  filesInOrder e w ->
  filesInOrder e (ensureAndReload e clock conversationId s held w).1.
Proof.
  intros Hw. unfold ensureAndReload.
  destruct (isEmpty (participantId s)); [done|].
  by apply ensure_inOrder.
Qed.

Lemma step_inOrder fallbackMounted e w w' :
  Step fallbackMounted e w w' -> filesInOrder e w -> filesInOrder e w'.
Proof.
  intros Hstep Hw.
  destruct Hstep as
    [cid now pid w
    |fpid cid now opening userId w _
    |provider random now summaryClock replyClock cid body w
    |now summaryClock cid w
    |w].
  - unfold conversationsStart.
    destruct (negb (truthy pid)); [done|].
    destruct (participantFiles w !! textOf pid); [|done].
    by apply (saveSession_inOrder e).
  - unfold chatStart. destruct opening; cbn [snd].
    + apply (saveSession_inOrder e). by apply (saveSession_inOrder e).
    + by apply (saveSession_inOrder e).
  - unfold conversationsMessage.
    destruct (isBlank body); [done|].
    destruct (activeConversations w !! cid) as [a|]; [|done].
    destruct (timeLimitReached e _); [done|].
    destruct (readConversation w cid) as [s|];
      [|by destruct (shouldEndNow _)].
    destruct (shouldEndNow (textOf body)).
    + pose proof (ensureAndReload_inOrder e summaryClock cid s
                    (messages s ++ [userTurn now body]) w Hw) as Hw1.
      unfold userTurn in Hw1.
      destruct ensureAndReload as [w1 kept]. cbn [fst snd] in *.
      by apply (saveSession_inOrder e).
    + by apply (saveSession_inOrder e).
  - unfold conversationsEnd.
    destruct (activeConversations w !! cid) as [a|]; [|done].
    destruct (readConversation w cid) as [s|]; [|done].
    pose proof (ensureAndReload_inOrder e summaryClock cid s
                  (messages s) w Hw) as Hw1.
    destruct ensureAndReload as [w1 kept]. cbn [fst snd] in *.
    by apply (saveSession_inOrder e).
  - done.
Qed.

(** The files of every reachable world are in order. *)
Lemma reachable_inOrder fallbackMounted e w :
  Reachable fallbackMounted e w -> filesInOrder e w.
Proof.
  induction 1 as [w Hfresh|w w' _ IH Hstep].
  - by apply fresh_inOrder.
  - by eapply step_inOrder.
Qed.

End ReachableWorlds.

(** ** The summary safety net *)

Lemma sliceLast_snoc {A} (n : nat) (l : list A) (x : A) :
  sliceLast (S n) (l ++ [x]) = sliceLast n l ++ [x].
Proof.
  unfold sliceLast. rewrite length_app. simpl.
  replace (length l + 1 - S n)%nat with (length l - n)%nat by lia.
  apply drop_app_le. lia.
Qed.

Lemma startsWith_app sub rest : startsWith sub (sub ++ rest) = true.
Proof.
  induction sub as [|c sub IH]; simpl; [reflexivity|].
  by rewrite N.eqb_refl, IH.
Qed.

Lemma includes_here s sub : startsWith sub s = true -> includes s sub = true.
Proof. intros Hs. destruct s; simpl; by rewrite Hs. Qed.

Lemma includes_app pre sub post : includes (pre ++ sub ++ post) sub = true.
Proof.
  induction pre as [|c pre IH].
  - rewrite app_nil_l. apply includes_here, startsWith_app.
  - simpl. rewrite IH. apply orb_true_r.
Qed.

Lemma bullets_counted pre post :
  (3 <= length (List.filter isBulletChar (pre ++ BULLET ++ post)))%nat.
Proof.
  rewrite !List.filter_app, !length_app. simpl. lia.
Qed.

Lemma join_cons sep x l :
  exists rest, join sep (x :: l) = x ++ rest.
Proof.
  destruct l as [|y l]; simpl.
  - exists []. by rewrite app_nil_r.
  - eauto.
Qed.

(** The text of a synthesized summary holds a bullet right after its
    preamble, whatever the points are, as long as there is one. *)
Lemma summaryText_bullet `{JSRuntime} point points :
  exists pre post,
    summaryText (point :: points) = pre ++ BULLET ++ post.
Proof.
  unfold summaryText. cbn [List.map].
  destruct (join_cons (NL ++ NL) (BULLET ++ lit " " ++ point)
              (List.map (fun p => BULLET ++ lit " " ++ p) points))
    as [rest ->].
  exists (SUMMARY_PREAMBLE ++ NL ++ NL).
  eexists. rewrite <- !app_assoc. reflexivity.
Qed.

Section SafetyNetFacts.
Context `{JSRuntime}.

(** A message that carries a synthesized summary passes the detector's
    test on bullets: its text holds the bullet, whose three code units
    are each in the class that is counted. *)
Lemma looksLikeSummary_synthesized point points r t g :
  looksLikeSummary
    {| role := r; content := summaryText (point :: points);
       timestamp := t; generated_summary := g |} = true.
Proof.
  unfold looksLikeSummary. cbn [content].
  destruct (summaryText_bullet point points) as (pre & post & ->).
  rewrite includes_app. cbn [orb andb].
  pose proof (bullets_counted pre post) as Hn.
  destruct (Nat.leb_spec 2
    (length (List.filter isBulletChar (pre ++ BULLET ++ post))));
    [reflexivity | lia].
Qed.

Lemma fallbackHasExistingSummary_snoc messages msg :
  isAssistant (role msg) = true ->
  looksLikeSummary msg = true ->
  fallbackHasExistingSummary (messages ++ [msg]) = true.
Proof.
  intros Hrole Hlooks. unfold fallbackHasExistingSummary.
  destruct (messages ++ [msg]) eqn:Hm.
  { by destruct messages. }
  rewrite <- Hm. rewrite List.filter_app. cbn [List.filter].
  rewrite Hrole, sliceLast_snoc, existsb_app. cbn [existsb].
  rewrite Hlooks. by rewrite orb_true_r.
Qed.

(** The generator never returns an empty list of points. *)
Lemma fallbackGenerateSummary_nonempty w messages participantId :
  fallbackGenerateSummary w messages participantId <> [].
Proof.
  unfold fallbackGenerateSummary.
  match goal with
  | |- take 5 (if (length ?sp <? 2)%nat then _ else _) <> _ =>
      generalize sp
  end.
  intros sp Hnil.
  destruct sp as [|p1 [|p2 sp]]; simpl in Hnil; discriminate Hnil.
Qed.

End SafetyNetFacts.

Section SafetyNetIdempotence.
Context `{JSRuntime}.
Variables (e : Env) (conversationId participantId : jsstring).

Lemma synthesizedSummary_detected w messages clock :
  fallbackHasExistingSummary
    (messages ++ [synthesizedSummary participantId w messages clock]) = true.
Proof.
  apply fallbackHasExistingSummary_snoc; [reflexivity|].
  unfold synthesizedSummary.
  destruct (fallbackGenerateSummary w messages participantId)
    as [|point points] eqn:Hpoints.
  - by apply fallbackGenerateSummary_nonempty in Hpoints.
  - apply looksLikeSummary_synthesized.
Qed.

Lemma ensure_absent clock w :
  readConversation w conversationId = None ->
  fallbackEnsureConversationSummary e clock conversationId participantId w
  = w.
Proof.
  intros Hr. unfold fallbackEnsureConversationSummary. by rewrite Hr.
Qed.

Lemma ensure_present clock w s :
  readConversation w conversationId = Some s ->
  fallbackHasExistingSummary (messages s) = true ->
  fallbackEnsureConversationSummary e clock conversationId participantId w
  = w.
Proof.
  intros Hr Hs. unfold fallbackEnsureConversationSummary.
  by rewrite Hr, Hs.
Qed.

Lemma ensure_synthesizes clock w s :
  readConversation w conversationId = Some s ->
  fallbackHasExistingSummary (messages s) = false ->
  fallbackEnsureConversationSummary e clock conversationId participantId w
  = (saveSession e
       (setMessages s
          (messages s ++ [synthesizedSummary participantId w (messages s) clock])) w).2.
Proof.
  intros Hr Hs. unfold fallbackEnsureConversationSummary.
  by rewrite Hr, Hs.
Qed.

(** What is on file after one run of the safety net: the record with a
    message list that passes the detector, which is the old list or the
    old list and one synthesized summary. *)
Lemma ensure_reload clock w s :
  writesFile e = true ->
  readConversation w conversationId = Some s ->
  id s = conversationId ->
  let w1 :=
    fallbackEnsureConversationSummary e clock conversationId
      participantId w in
  exists kept,
    readConversation w1 conversationId = Some (setMessages s kept) /\
    fallbackHasExistingSummary kept = true /\
    activeConversations w1 = activeConversations w /\
    (kept = messages s /\ w1 = w \/
     fallbackHasExistingSummary (messages s) = false /\
     kept = messages s ++ [synthesizedSummary participantId w (messages s) clock]).
Proof.
  intros Hf Hr Hid w1. subst w1.
  destruct (fallbackHasExistingSummary (messages s)) eqn:Hs.
  - rewrite (ensure_present _ _ _ Hr Hs). exists (messages s).
    repeat split; auto. rewrite Hr. by destruct s.
  - rewrite (ensure_synthesizes _ _ _ Hr Hs).
    exists (messages s ++ [synthesizedSummary participantId w (messages s) clock]).
    repeat split; auto using synthesizedSummary_detected.
    rewrite <- Hid.
    exact (saveSession_read e
             (setMessages s
                (messages s ++ [synthesizedSummary participantId w (messages s) clock]))
             w Hf).
Qed.

End SafetyNetIdempotence.

(** Two runs in a row, where the safety net reads back what it wrote. *)
Lemma ensure_twice `{JSRuntime}
    (e : Env) (clock1 clock2 : Z) (conversationId participantId : jsstring)
    (w : World) :
  writesFile e = true ->
  (forall s, readConversation w conversationId = Some s ->
             id s = conversationId) ->
  let w1 :=
    fallbackEnsureConversationSummary e clock1 conversationId participantId
      w in
  let w2 :=
    fallbackEnsureConversationSummary e clock2 conversationId participantId
      w1 in
  w2 = w1 /\
  forall s,
    readConversation w conversationId = Some s ->
    if fallbackHasExistingSummary (messages s) then w2 = w
    else
      exists summary,
        readConversation w2 conversationId =
          Some (setMessages s (messages s ++ [summary])) /\
        role summary = assistant /\
        generated_summary summary = true /\
        length (List.filter generated_summary (messages s ++ [summary])) =
        S (length (List.filter generated_summary (messages s))).
Proof.
  intros Hf Hwf w1 w2.
  destruct (readConversation w conversationId) as [s|] eqn:Hr.
  - specialize (Hwf s eq_refl).
    destruct (ensure_reload e conversationId participantId clock1 w s
                Hf Hr Hwf) as (kept & Hr1 & Hk & _ & Hcases).
    fold w1 in Hr1, Hcases.
    assert (Hnoop : w2 = w1).
    { subst w2. eapply ensure_present; [exact Hr1 | exact Hk]. }
    split; [exact Hnoop|].
    intros s' [= <-].
    destruct Hcases as [[-> Hw]|[Hs ->]].
    + rewrite Hk. congruence.
    + rewrite Hs. eexists. rewrite Hnoop. split; [exact Hr1|].
      split; [reflexivity|]. split; [reflexivity|].
      rewrite List.filter_app, length_app. simpl. lia.
  - assert (Hw1 : w1 = w) by (subst w1; by apply ensure_absent).
    split; [|discriminate].
    subst w2. rewrite Hw1. apply ensure_absent. exact Hr.
Qed.

(** A list without assistant messages holds nothing for the detector. *)
Lemma no_reply_no_summary `{JSRuntime} (messages : list Message) :
  Forall (fun msg => role msg = user) messages ->
  fallbackHasExistingSummary messages = false.
Proof.
  intros Hall. unfold fallbackHasExistingSummary.
  destruct messages as [|m messages]; [reflexivity|].
  assert (List.filter (fun msg => isAssistant (role msg)) (m :: messages)
          = []) as ->; [|reflexivity].
  induction Hall as [|m' l Hm Hall IH]; [reflexivity|].
  simpl. by rewrite Hm.
Qed.

Lemma startedWorld_reachable :
  Reachable (H := asciiRuntime) false devEnv startedWorld.
Proof.
  eapply reach_step.
  - apply (reach_fresh (H := asciiRuntime) false devEnv enrolledWorld).
    repeat split.
  - apply step_start.
Defined.


Lemma openWorld_reachable :
  Reachable (H := asciiRuntime) false devEnv openWorld.
Proof.
  eapply reach_step; [exact startedWorld_reachable | apply step_message].
Defined.

Lemma markedWorld_reachable :
  Reachable (H := asciiRuntime) false devEnv markedWorld.
Proof.
  eapply reach_step; [exact openWorld_reachable | apply step_message].
Defined.

(** Two runs of the safety net that produce no summary at all: the
    session of [markedWorld], reached from a fresh deployment by a
    start and two exchanges, holds a reply with two hyphens used as
    dashes, which the detector takes for a summary; both runs leave
    the world as it is, and the record on file holds no message
    flagged as generated.  In that reply there is no bullet and no
    summary keyword. *)
Lemma marked_reply_gets_no_summary :
  Reachable (H := asciiRuntime) false devEnv markedWorld /\
  fallbackEnsureConversationSummary (H := asciiRuntime) devEnv 9002
    (lit "c1") (lit "p1")
    (fallbackEnsureConversationSummary (H := asciiRuntime) devEnv 9001
       (lit "c1") (lit "p1") markedWorld) = markedWorld /\
  exists s,
    readConversation markedWorld (lit "c1") = Some s /\
    content <$> last (messages s) =
      Some (lit "I see - and what did your family say - if anything?") /\
    generatedSummaries (messages s) = [].
Proof.
  split; [exact markedWorld_reachable|].
  split; [vm_compute; reflexivity|].
  eexists. split; [vm_compute; reflexivity|].
  split; vm_compute; reflexivity.
Qed.

(** C7 (as amended). In every world that a fresh deployment gets into
    through the operations of the lifecycle core, and for every
    conversation id, a second run of the safety net right after the
    first changes nothing.  With no record on file both runs change
    nothing.  With a record on file in which the detector finds a
    summary, both runs change nothing and no summary is generated.
    With a record on file in which the detector finds none, which is
    so whenever the record holds no assistant message, the record on
    file after both runs is the record with one message appended, the
    summary synthesized by the first run, flagged as generated: the
    messages flagged as generated are the ones there were and that
    one, not two. *)
Theorem ensureSummary_idempotent `{JSRuntime}
    (fallbackMounted : bool) (e : Env) (w : World) (clock1 clock2 : Z)
    (conversationId participantId : jsstring) :
  Reachable fallbackMounted e w ->
  let w1 :=
    fallbackEnsureConversationSummary e clock1 conversationId participantId
      w in
  let w2 :=
    fallbackEnsureConversationSummary e clock2 conversationId participantId
      w1 in
  w2 = w1 /\
  (readConversation w conversationId = None -> w2 = w) /\
  forall s,
    readConversation w conversationId = Some s ->
    let summary :=
      synthesizedSummary participantId w (messages s) clock1 in
    (fallbackHasExistingSummary (messages s) = true -> w2 = w) /\
    (fallbackHasExistingSummary (messages s) = false ->
     readConversation w2 conversationId =
       Some (setMessages s (messages s ++ [summary])) /\
     generatedSummaries (messages s ++ [summary]) =
       generatedSummaries (messages s) ++ [summary]) /\
    (Forall (fun msg => role msg = user) (messages s) ->
     fallbackHasExistingSummary (messages s) = false).
Proof.
  intros Hreach w1 w2.
  apply reachable_inOrder in Hreach as [Hown Hnone].
  assert (Habsent : readConversation w conversationId = None -> w1 = w).
  { intros Hr. subst w1. by apply ensure_absent. }
  assert (Hsame : w2 = w1).
  { destruct (readConversation w conversationId) as [s|] eqn:Hr.
    - destruct (writesFile e) eqn:Hf.
      + destruct (ensure_reload e conversationId participantId clock1 w s
                    Hf Hr (Hown conversationId s Hr))
          as (kept & Hr1 & Hk & _ & _).
        fold w1 in Hr1. subst w2.
        eapply ensure_present; [exact Hr1 | exact Hk].
      + unfold readConversation in Hr.
        rewrite (Hnone eq_refl), lookup_empty in Hr. discriminate Hr.
    - subst w2. rewrite (Habsent eq_refl). by apply ensure_absent. }
  split; [exact Hsame|]. split.
  { intros Hr. rewrite Hsame. by apply Habsent. }
  intros s Hr summary. split; [|split].
  - intros Hs. rewrite Hsame. subst w1. by eapply ensure_present.
  - intros Hs.
    assert (Hf : writesFile e = true).
    { destruct (writesFile e); [reflexivity|].
      unfold readConversation in Hr.
      rewrite (Hnone eq_refl), lookup_empty in Hr. discriminate Hr. }
    split.
    + rewrite Hsame. subst w1.
      rewrite (ensure_synthesizes e conversationId participantId clock1 w s
                 Hr Hs).
      rewrite <- (Hown conversationId s Hr).
      exact (saveSession_read e (setMessages s (messages s ++ [summary]))
               w Hf).
    + unfold generatedSummaries. by rewrite List.filter_app.
  - apply no_reply_no_summary.
Qed.

Lemma ensureSummary_idempotent_witness :
  exists summary,
    readConversation
      (fallbackEnsureConversationSummary (H := asciiRuntime) devEnv 9002
         (lit "c1") (lit "p1")
         (fallbackEnsureConversationSummary (H := asciiRuntime) devEnv 9001
            (lit "c1") (lit "p1") openWorld)) (lit "c1")
    = Some (setMessages openSession (messages openSession ++ [summary])) /\
    generated_summary summary = true /\
    generatedSummaries (messages openSession ++ [summary]) = [summary].
Proof.
  destruct (ensureSummary_idempotent (H := asciiRuntime) false devEnv
    openWorld 9001 9002 (lit "c1") (lit "p1") openWorld_reachable)
    as (_ & _ & Hfile).
  destruct (Hfile openSession) as (_ & Hnew & _).
  - vm_compute. reflexivity.
  - destruct Hnew as [Hread Hgenerated].
    + reflexivity.
    + eexists. split; [exact Hread|]. split; [reflexivity|].
      exact Hgenerated.
Defined.

(** ** Turns *)

Lemma pickRandom_in random arr : arr <> [] -> In (pickRandom random arr) arr.
Proof.
  intros Hne. unfold pickRandom. apply nth_In.
  apply Nat.mod_upper_bound. by destruct arr.
Qed.

Section Turns.
Context `{JSRuntime}.

Lemma generateIntelligentFallback_in random messages :
  In (generateIntelligentFallback random messages) fallbackReplies.
Proof.
  unfold generateIntelligentFallback, fallbackReplies.
  repeat match goal with
  | |- context [if ?b then _ else _] => destruct b
  end;
  try (simpl; tauto);
  apply in_or_app; right; apply in_or_app; [left|right];
  by apply pickRandom_in.
Qed.

Lemma fallbackReplies_nonempty reply :
  In reply fallbackReplies -> reply <> [].
Proof.
  unfold fallbackReplies. simpl.
  intros Hin; repeat destruct Hin as [<-|Hin]; try discriminate.
  destruct Hin.
Qed.

(** Whatever the provider does, a failure of the provider call turns
    into the fallback reply. *)
Lemma generateAIResponse_failure e provider random messages prompt m :
  truthy (OPENAI_API_KEY e) = true ->
  awaitCompletion provider = Thrown m ->
  generateAIResponse e provider random messages prompt =
  generateIntelligentFallback random messages.
Proof.
  intros Hkey Hfail. unfold generateAIResponse. by rewrite Hkey, Hfail.
Qed.

Variables (e : Env) (provider : ProviderResult) (random : nat).
Variables (now summaryClock replyClock : Z).
Variables (conversationId : jsstring) (body : option jsstring).
Variables (w : World) (activeConv : ActiveConversation) (s : Session).

Hypothesis valid : isBlank body = false.
Hypothesis tracked : activeConversations w !! conversationId = Some activeConv.
Hypothesis inTime :
  timeLimitReached e (elapsedSeconds now (ac_startedAt activeConv)) = false.
Hypothesis onFile : readConversation w conversationId = Some s.

(** The normal turn: one reply, one save of the record with both
    messages appended. *)
Lemma message_turn :
  shouldEndNow (textOf body) = false ->
  conversationsMessage e provider random now summaryClock replyClock
    conversationId body w =
  let reply :=
    generateAIResponse e provider random (messages s ++ [userTurn now body])
      (systemPrompt s) in
  (Reply reply false,
   (saveSession e
      (setMessages s (messages s ++ [userTurn now body] ++ [assistantTurn replyClock reply]))
      (setActive conversationId
         {| ac_participantId := ac_participantId activeConv;
            ac_startedAt := ac_startedAt activeConv;
            ac_lastActivity := Some now |} w)).2).
Proof.
  intros Hphrase. unfold conversationsMessage.
  rewrite valid, tracked, inTime, Hphrase, onFile.
  cbv zeta. by rewrite <- app_assoc.
Qed.


End Turns.

(** C8. On a turn that reaches the provider (valid text, tracked session
    within its time, no termination phrase, record on file, API key
    configured), a provider call that loses the race against the timer
    is answered with a reply: one of the fixed fallback sentences, not
    empty, delivered with status 200 as the turn's reply; the handler
    returns no error. *)
Theorem provider_timeout_falls_back `{JSRuntime}
    (e : Env) (random : nat) (now summaryClock replyClock : Z)
    (conversationId : jsstring) (body : option jsstring) (w : World)
    (activeConv : ActiveConversation) (s : Session) :
  isBlank body = false ->
  activeConversations w !! conversationId = Some activeConv ->
  timeLimitReached e (elapsedSeconds now (ac_startedAt activeConv)) = false ->
  readConversation w conversationId = Some s ->
  shouldEndNow (textOf body) = false ->
  truthy (OPENAI_API_KEY e) = true ->
  exists reply,
    (conversationsMessage e TimedOut random now summaryClock replyClock
       conversationId body w).1 = Reply reply false /\
    reply =
      generateIntelligentFallback random (messages s ++ [userTurn now body]) /\
    In reply fallbackReplies /\
    reply <> [].
Proof.
  intros Hvalid Htracked Htime Hfile Hphrase Hkey.
  rewrite (message_turn _ _ _ _ _ _ _ _ _ _ _ Hvalid Htracked Htime Hfile
             Hphrase).
  cbv zeta. cbn [fst].
  rewrite (generateAIResponse_failure e TimedOut random _ _ _ Hkey eq_refl).
  eexists. split; [reflexivity|]. split; [reflexivity|].
  pose proof (generateIntelligentFallback_in random
                (messages s ++ [userTurn now body])) as Hin.
  split; [exact Hin | by apply fallbackReplies_nonempty].
Qed.

Lemma provider_timeout_falls_back_witness :
  exists reply,
    (conversationsMessage (H := asciiRuntime) devEnv TimedOut 0
       5000 5001 5002 (lit "c1") (Some (lit "hello there")) openWorld).1
    = Reply reply false /\
    In reply fallbackReplies.
Proof.
  destruct (provider_timeout_falls_back (H := asciiRuntime) devEnv 0
    5000 5001 5002 (lit "c1") (Some (lit "hello there")) openWorld
    openConv openSession)
    as (reply & Hr & _ & Hin & _).
  - reflexivity.
  - vm_compute. reflexivity.
  - reflexivity.
  - vm_compute. reflexivity.
  - reflexivity.
  - reflexivity.
  - exists reply. split; assumption.
Defined.

(** When the provider call times out, the turn is not refused and the
    record on file does change: the request is answered with a fallback
    reply, and the user's message of that attempt is on file, followed
    by the fallback reply. *)
Lemma failed_generation_is_answered_and_saved :
  awaitCompletion TimedOut = Thrown (lit "OpenAI API timeout") /\
  (conversationsMessage (H := asciiRuntime) devEnv TimedOut 0
     5000 5001 5002 (lit "c1") (Some (lit "hello there")) openWorld).1
  = Reply (pickRandom 0 earlyResponses) false /\
  messages <$>
    readConversation
      (conversationsMessage (H := asciiRuntime) devEnv TimedOut 0
         5000 5001 5002 (lit "c1") (Some (lit "hello there")) openWorld).2
      (lit "c1")
  = Some (messages openSession ++
          [userSays "hello there" 5000;
           {| role := assistant; content := pickRandom 0 earlyResponses;
              timestamp := Some 5002%Z; generated_summary := false |}]).
Proof.
  split; [reflexivity|]. split; vm_compute; reflexivity.
Qed.

(** C3 (as amended). On a turn that reaches the provider (valid text,
    tracked session within its time, no termination phrase, record on
    file), the request is answered with a reply whatever the provider
    does; when the provider call fails (timeout, rejection, or an empty
    answer) with the API key configured, that reply is the fallback
    reply.  The one write of the turn stores the record with the user's
    message and the reply appended together, in each store that is
    written; a record with the user's message and no reply is never
    stored. *)
Theorem turn_is_saved_whole `{JSRuntime}
    (e : Env) (provider : ProviderResult) (random : nat)
    (now summaryClock replyClock : Z) (conversationId : jsstring)
    (body : option jsstring) (w : World) (activeConv : ActiveConversation)
    (s : Session) :
  isBlank body = false ->
  activeConversations w !! conversationId = Some activeConv ->
  timeLimitReached e (elapsedSeconds now (ac_startedAt activeConv)) = false ->
  readConversation w conversationId = Some s ->
  shouldEndNow (textOf body) = false ->
  let result :=
    conversationsMessage e provider random now summaryClock replyClock
      conversationId body w in
  exists reply,
    result.1 = Reply reply false /\
    (forall m, truthy (OPENAI_API_KEY e) = true ->
               awaitCompletion provider = Thrown m ->
               reply = generateIntelligentFallback random
                         (messages s ++ [userTurn now body])) /\
    let saved :=
      setMessages s
        (messages s ++ [userTurn now body; assistantTurn replyClock reply]) in
    conversationFiles result.2 =
      (if writesFile e then <[id s := saved]> (conversationFiles w)
       else conversationFiles w) /\
    primaryStore result.2 =
      (if writesPrimary e then <[id s := saved]> (primaryStore w)
       else primaryStore w).
Proof.
  intros Hvalid Htracked Htime Hfile Hphrase result. subst result.
  rewrite (message_turn _ _ _ _ _ _ _ _ _ _ _ Hvalid Htracked Htime Hfile
             Hphrase).
  cbv zeta. eexists. split; [reflexivity|]. split.
  - intros m Hkey Hfail. by eapply generateAIResponse_failure.
  - split; reflexivity.
Qed.

Lemma turn_is_saved_whole_witness :
  exists reply,
    (conversationsMessage (H := asciiRuntime) devEnv (Rejected (lit "rate limit"))
       0 5000 5001 5002 (lit "c1") (Some (lit "hello there")) openWorld).1
    = Reply reply false.
Proof.
  destruct (turn_is_saved_whole (H := asciiRuntime) devEnv
    (Rejected (lit "rate limit")) 0
    5000 5001 5002 (lit "c1") (Some (lit "hello there")) openWorld
    openConv openSession)
    as (reply & Hr & _).
  - reflexivity.
  - vm_compute. reflexivity.
  - reflexivity.
  - vm_compute. reflexivity.
  - reflexivity.
  - exists reply. exact Hr.
Defined.

(** ** Closing a session *)


Lemma deleteActive_gone conversationId w :
  activeConversations (deleteActive conversationId w) !! conversationId = None.
Proof. apply lookup_delete_eq. Qed.

Section Closing.
Context `{JSRuntime}.

Variables (e : Env) (conversationId : jsstring) (w : World) (s : Session).
Hypothesis filesWritten : writesFile e = true.
Hypothesis onFile : readConversation w conversationId = Some s.
Hypothesis ownId : id s = conversationId.
Hypothesis hasParticipant : participantId s <> [].



End Closing.

Lemma summaryEnsured_present `{JSRuntime} w s clock kept :
  summaryEnsured w s clock kept -> summaryPresent s kept.
Proof.
  intros [Hk [->|[Hs ->]]]; split; auto.
  - rewrite Hk. lia.
  - rewrite Hs, List.filter_app, length_app. reflexivity.
Qed.




(** The list the phrase-triggered end saves for the open session of the
    examples: the two messages that were on file, the synthesized
    summary, the closing line. *)
Lemma phrase_end_saved_list :
  messages <$>
    readConversation
      (conversationsMessage (H := asciiRuntime) devEnv TimedOut 0
         60000 60001 60002 (lit "c1") (Some (lit "please end the chat now"))
         openWorld).2 (lit "c1")
  = Some (messages openSession ++
          [synthesizedSummary (H := asciiRuntime) (lit "p1") openWorld
             (messages openSession) 60001;
           assistantTurn 60002 FINAL_REPLY]).
Proof. vm_compute. reflexivity. Qed.

Lemma crowdedWorld_reachable :
  Reachable (H := asciiRuntime) false devEnv crowdedWorld.
Proof.
  do 4 (eapply reach_step; [|apply step_message]).
  exact markedWorld_reachable.
Defined.

(** The closing line can hide the summary from the detector.  In
    [crowdedWorld] the reply with the two dashes is the fifth last
    assistant message, so the detector finds it and the safety net
    appends nothing.  The explicit end saves that list, on which the
    detector still succeeds; the phrase-triggered end saves it with the
    closing line after it, which makes the marked reply the sixth last
    assistant message: on the record it leaves the detector finds
    nothing, and no message is flagged as generated. *)
Lemma closing_line_hides_the_summary :
  Reachable (H := asciiRuntime) false devEnv crowdedWorld /\
  (exists closed,
     readConversation
       (conversationsEnd (H := asciiRuntime) devEnv 60000 60001 (lit "c1")
          crowdedWorld).2 (lit "c1") = Some closed /\
     fallbackHasExistingSummary (H := asciiRuntime) (messages closed)
     = true) /\
  (exists closed,
     readConversation
       (conversationsMessage (H := asciiRuntime) devEnv TimedOut 0
          60000 60001 60002 (lit "c1")
          (Some (lit "please end the chat now")) crowdedWorld).2 (lit "c1")
     = Some closed /\
     fallbackHasExistingSummary (H := asciiRuntime) (messages closed)
     = false /\
     generatedSummaries (messages closed) = []).
Proof.
  split; [exact crowdedWorld_reachable|]. split.
  - eexists. split; vm_compute; reflexivity.
  - eexists. split; [vm_compute; reflexivity|].
    split; vm_compute; reflexivity.
Qed.



(** ** End timestamp and duration *)

Lemma timingConsistent_setMessages s ms :
  timingConsistent s -> timingConsistent (setMessages s ms).
Proof. by destruct s. Qed.

Lemma timingConsistent_setEnded s at_ seconds :
  timingConsistent (setEnded s at_ seconds).
Proof. right. split; eexists; reflexivity. Qed.

Lemma saveSession_consistent e s w :
  timingConsistent s -> storesConsistent w ->
  storesConsistent (saveSession e s w).2.
Proof.
  intros Hs [Hfiles Hprimary]. split; cbn.
  - destruct (writesFile e); [by apply map_Forall_insert_2 | done].
  - destruct (writesPrimary e); [by apply map_Forall_insert_2 | done].
Qed.

Lemma readConversation_consistent w k s :
  storesConsistent w -> readConversation w k = Some s -> timingConsistent s.
Proof. intros [Hfiles _] Hr. exact (Hfiles k s Hr). Qed.

Lemma setActive_consistent k a w :
  storesConsistent w -> storesConsistent (setActive k a w).
Proof. done. Qed.

Lemma deleteActive_consistent k w :
  storesConsistent w -> storesConsistent (deleteActive k w).
Proof. done. Qed.

Section TimingPreserved.
Context `{JSRuntime}.

Lemma ensure_consistent e clock conversationId participantId w :
  storesConsistent w ->
  storesConsistent
    (fallbackEnsureConversationSummary e clock conversationId
       participantId w).
Proof.
  intros Hw. unfold fallbackEnsureConversationSummary.
  destruct (readConversation w conversationId) as [s|] eqn:Hr; [|done].
  destruct (fallbackHasExistingSummary (messages s)); [done|].
  apply saveSession_consistent; [|done].
  apply timingConsistent_setMessages.
  by eapply readConversation_consistent.
Qed.

Lemma ensureAndReload_consistent e clock conversationId s held w :
  storesConsistent w ->
  storesConsistent (ensureAndReload e clock conversationId s held w).1.
Proof.
  intros Hw. unfold ensureAndReload.
  destruct (isEmpty (participantId s)); [done|].
  by apply ensure_consistent.
Qed.

(** The start of a conversation, a turn with or without the
    termination phrase, and the explicit end keep every stored record
    consistent. *)
Lemma conversationsStart_consistent e conversationId now participantId w :
  storesConsistent w ->
  storesConsistent
    (conversationsStart e conversationId now participantId w).2.
Proof.
  intros Hw. unfold conversationsStart.
  destruct (negb (truthy participantId)); [done|].
  destruct (participantFiles w !! textOf participantId); [|done].
  cbn [snd]. apply setActive_consistent.
  apply (saveSession_consistent e); [|done]. by left.
Qed.

Lemma conversationsMessage_consistent e provider random now summaryClock
    replyClock conversationId body w :
  storesConsistent w ->
  storesConsistent
    (conversationsMessage e provider random now summaryClock replyClock
       conversationId body w).2.
Proof.
  intros Hw. unfold conversationsMessage.
  destruct (isBlank body); [done|].
  destruct (activeConversations w !! conversationId) as [a|]; [|done].
  destruct (timeLimitReached e _); [done|].
  destruct (readConversation w conversationId) as [s|] eqn:Hr;
    [|by destruct (shouldEndNow _)].
  destruct (shouldEndNow (textOf body)).
  - pose proof (ensureAndReload_consistent e summaryClock conversationId s
                  (messages s ++ [userTurn now body]) w Hw) as Hw1.
    unfold userTurn in Hw1.
    destruct ensureAndReload as [w1 kept]. cbn [fst snd] in *.
    apply deleteActive_consistent.
    apply (saveSession_consistent e); [|done].
    apply timingConsistent_setEnded.
  - cbn [snd].
    apply (saveSession_consistent e); [|by apply setActive_consistent].
    apply timingConsistent_setMessages.
    by eapply readConversation_consistent.
Qed.

Lemma conversationsEnd_consistent e now summaryClock conversationId w :
  storesConsistent w ->
  storesConsistent (conversationsEnd e now summaryClock conversationId w).2.
Proof.
  intros Hw. unfold conversationsEnd.
  destruct (activeConversations w !! conversationId) as [a|]; [|done].
  destruct (readConversation w conversationId) as [s|] eqn:Hr; [|done].
  pose proof (ensureAndReload_consistent e summaryClock conversationId s
                (messages s) w Hw) as Hw1.
  destruct ensureAndReload as [w1 kept]. cbn [fst snd] in *.
  apply deleteActive_consistent.
  apply (saveSession_consistent e); [|done].
  apply timingConsistent_setEnded.
Qed.

End TimingPreserved.

(** Where the fallback endpoints are not mounted, every record of every
    reachable world has its end timestamp and its duration both absent
    or both set. *)
Lemma reachable_consistent `{JSRuntime} (e : Env) (w : World) :
  Reachable false e w -> storesConsistent w.
Proof.
  induction 1 as [w Hfresh|w w' _ IH Hstep].
  - by apply fresh_consistent.
  - destruct Hstep as
      [cid now pid w
      |fpid cid now opening userId w Hmounted
      |provider random now summaryClock replyClock cid body w
      |now summaryClock cid w
      |w].
    + by apply conversationsStart_consistent.
    + discriminate Hmounted.
    + by apply conversationsMessage_consistent.
    + by apply conversationsEnd_consistent.
    + done.
Qed.

(** C1, at the fallback start. With the conversation files being
    written, the record that [POST /chat/start] leaves on file for the
    new conversation has no end timestamp and the duration 0: exactly
    one of the two is set. *)
Theorem fallback_start_duration_without_end
    (e : Env) (freshParticipantId conversationId : jsstring) (now : Z)
    (opening : Outcome jsstring) (userId : option jsstring) (w : World) :
  writesFile e = true ->
  exists filed,
    readConversation
      (chatStart e freshParticipantId conversationId now opening userId w).2
      conversationId = Some filed /\
    endedAt filed = None /\
    durationSeconds filed = Some 0%Z /\
    ~ timingConsistent filed.
Proof.
  intros Hf. unfold chatStart.
  assert (Hbad : forall s, endedAt s = None -> durationSeconds s = Some 0%Z ->
                           ~ timingConsistent s).
  { intros s He Hd [[_ Hn]|[[x Hx] _]]; congruence. }
  destruct opening as [line|message]; cbn [snd]; eexists; split.
  - match goal with
    | |- readConversation (saveSession _ ?s _).2 _ = _ =>
        exact (saveSession_read e s _ Hf)
    end.
  - cbn. repeat split; auto.
  - unfold readConversation, setActive. cbn [conversationFiles].
    match goal with
    | |- conversationFiles (saveSession _ ?s _).2 !! _ = _ =>
        exact (saveSession_read e s _ Hf)
    end.
  - cbn. repeat split; auto.
Qed.

Lemma fallback_start_duration_without_end_witness :
  exists filed,
    readConversation
      (chatStart devEnv (lit "p7") (lit "c7") 1000
         (Returned (lit "Hello, what changed your mind?")) None
         emptyWorld).2 (lit "c7") = Some filed /\
    endedAt filed = None /\
    durationSeconds filed = Some 0%Z.
Proof.
  destruct (fallback_start_duration_without_end devEnv (lit "p7") (lit "c7")
    1000 (Returned (lit "Hello, what changed your mind?")) None emptyWorld)
    as (filed & Hr & He & Hd & _).
  - reflexivity.
  - exists filed. auto.
Defined.

(** ** Start-up *)



(** * Further properties *)

(** ** The points of a synthesized summary *)

Lemma fallbackGenerateSummary_assemble `{JSRuntime} w messages participantId :
  fallbackGenerateSummary w messages participantId =
  assemblePoints (profilePoint (participantFiles w !! participantId))
    (themeRaised EVIDENCE_WORDS messages)
    (themeRaised PERSONAL_WORDS messages)
    (themeRaised SOCIAL_WORDS messages)
    (themeRaised MEDIA_WORDS messages)
    (themeRaised CHANGE_WORDS messages)
    EVIDENCE_POINT PERSONAL_POINT SOCIAL_POINT MEDIA_POINT CHANGE_POINT
    FIRST_FILLER SECOND_FILLER.
Proof. reflexivity. Qed.

Lemma profilePoint_short `{JSRuntime} participant :
  profilePoint participant = [] \/
  exists point, profilePoint participant = [point].
Proof.
  unfold profilePoint.
  destruct participant as [p|]; [|by left].
  destruct (mind_change_direction p) as [[|c d]|]; [by left| |by left].
  destruct (changeDescription (c :: d) (mind_change_other_text p));
    [by left | right; eauto].
Qed.

Section Assembly.
Context {A : Type}.
Variables (EV PE SO ME CH F1 F2 : A).

Local Ltac flags :=
  repeat match goal with
  | b : bool |- _ => destruct b
  end.

Lemma assemblePoints_length (profile : list A) ev pe so me ch :
  (length profile <= 1)%nat ->
  (2 <= length (assemblePoints profile ev pe so me ch EV PE SO ME CH F1 F2)
   <= 5)%nat.
Proof.
  intros Hp. destruct profile as [|p [|q profile]]; [| |simpl in Hp; lia];
    flags; cbn; lia.
Qed.

Lemma assemblePoints_sublist (profile : list A) ev pe so me ch :
  (length profile <= 1)%nat ->
  assemblePoints profile ev pe so me ch EV PE SO ME CH F1 F2
  `sublist_of` profile ++ [EV; PE; SO; ME; CH; F1; F2].
Proof.
  intros Hp. destruct profile as [|p [|q profile]]; [| |simpl in Hp; lia];
    flags; cbn;
    repeat first
      [ apply sublist_nil | apply sublist_skip | apply sublist_cons ].
Qed.

Lemma assemblePoints_head (point : A) ev pe so me ch :
  head (assemblePoints [point] ev pe so me ch EV PE SO ME CH F1 F2)
  = Some point.
Proof. flags; reflexivity. Qed.

Lemma assemblePoints_themes (profile : list A) ev pe so me ch :
  (length profile <= 1)%nat ->
  let points := assemblePoints profile ev pe so me ch EV PE SO ME CH F1 F2 in
  (ev = true -> In EV points) /\
  (pe = true -> In PE points) /\
  (so = true -> In SO points) /\
  (me = true -> In ME points) /\
  (ch = true ->
   In CH points \/
   exists point, profile = [point] /\ points = [point; EV; PE; SO; ME]).
Proof.
  intros Hp. destruct profile as [|p [|q profile]]; [| |simpl in Hp; lia];
    flags; cbn; repeat split; intros; try discriminate; eauto 12.
Qed.

End Assembly.

Lemma profilePoint_length `{JSRuntime} participant :
  (length (profilePoint participant) <= 1)%nat.
Proof.
  destruct (profilePoint_short participant) as [->|[point ->]]; simpl; lia.
Qed.

(** X1. Whatever the messages and the participant are, a synthesized
    summary has at least two points and at most five. *)
Theorem summary_has_two_to_five_points `{JSRuntime}
    (w : World) (messages : list Message) (participantId : jsstring) :
  (2 <= length (fallbackGenerateSummary w messages participantId) <= 5)%nat.
Proof.
  rewrite fallbackGenerateSummary_assemble.
  apply assemblePoints_length, profilePoint_length.
Qed.

(** X2. The points of a synthesized summary come in the fixed order:
    the belief-change point of the profile when there is one, then
    evidence, personal experience, other people, media, the process of
    change, then the two fillers; the summary is a selection from that
    list, in that order. *)
Theorem summary_points_in_fixed_order `{JSRuntime}
    (w : World) (messages : list Message) (participantId : jsstring) :
  fallbackGenerateSummary w messages participantId
  `sublist_of`
  profilePoint (participantFiles w !! participantId) ++
  [EVIDENCE_POINT; PERSONAL_POINT; SOCIAL_POINT; MEDIA_POINT; CHANGE_POINT;
   FIRST_FILLER; SECOND_FILLER].
Proof.
  rewrite fallbackGenerateSummary_assemble.
  apply assemblePoints_sublist, profilePoint_length.
Qed.

(** X3. A theme that a message the generator reads raises gets its
    point into the summary; the cut at five can only drop the point of
    the process of change, and it does so exactly when the profile point
    and the four other theme points are all there. *)
Theorem summary_keeps_raised_themes `{JSRuntime}
    (w : World) (messages : list Message) (participantId : jsstring) :
  let points := fallbackGenerateSummary w messages participantId in
  (themeRaised EVIDENCE_WORDS messages = true -> In EVIDENCE_POINT points) /\
  (themeRaised PERSONAL_WORDS messages = true -> In PERSONAL_POINT points) /\
  (themeRaised SOCIAL_WORDS messages = true -> In SOCIAL_POINT points) /\
  (themeRaised MEDIA_WORDS messages = true -> In MEDIA_POINT points) /\
  (themeRaised CHANGE_WORDS messages = true ->
   In CHANGE_POINT points \/
   exists point,
     profilePoint (participantFiles w !! participantId) = [point] /\
     points = [point; EVIDENCE_POINT; PERSONAL_POINT; SOCIAL_POINT;
               MEDIA_POINT]).
Proof.
  cbv zeta. rewrite fallbackGenerateSummary_assemble.
  apply assemblePoints_themes, profilePoint_length.
Qed.

Lemma summary_keeps_raised_themes_witness :
  In EVIDENCE_POINT
    (fallbackGenerateSummary (H := asciiRuntime) enrolledWorld
       (messages openSession) (lit "p1")).
Proof.
  pose proof (summary_keeps_raised_themes (H := asciiRuntime) enrolledWorld
                (messages openSession) (lit "p1")) as Hthemes.
  cbv zeta in Hthemes. destruct Hthemes as [Hevidence _].
  apply Hevidence. vm_compute. reflexivity.
Defined.

(** X4. When the participant's profile is on file with a change
    direction for which the generator has a sentence, the first point of
    the summary is that sentence after its fixed lead-in. *)
Theorem summary_opens_with_belief_change `{JSRuntime}
    (w : World) (messages : list Message) (participantId : jsstring)
    (p : Participant) (direction : jsstring) :
  participantFiles w !! participantId = Some p ->
  mind_change_direction p = Some direction ->
  direction <> [] ->
  changeDescription direction (mind_change_other_text p) <> [] ->
  head (fallbackGenerateSummary w messages participantId) =
    Some (lit "You described your belief change: " ++
          changeDescription direction (mind_change_other_text p)).
Proof.
  intros Hfile Hdir Hne Hdesc.
  rewrite fallbackGenerateSummary_assemble, Hfile.
  assert (profilePoint (Some p) =
          [lit "You described your belief change: " ++
           changeDescription direction (mind_change_other_text p)]) as ->.
  { unfold profilePoint. rewrite Hdir.
    destruct direction as [|c d]; [done|].
    by destruct (changeDescription (c :: d) (mind_change_other_text p)). }
  apply assemblePoints_head.
Qed.

Lemma summary_opens_with_belief_change_witness :
  head (fallbackGenerateSummary (H := asciiRuntime) enrolledWorld [] (lit "p1"))
  = Some (lit "You described your belief change: From thinking climate change is natural, to thinking it is human-caused").
Proof.
  refine (summary_opens_with_belief_change (H := asciiRuntime)
    enrolledWorld [] (lit "p1")
    {| mind_change_direction := Some (lit "natural_to_human");
       mind_change_other_text := None |} (lit "natural_to_human") _ _ _ _).
  - vm_compute. reflexivity.
  - reflexivity.
  - discriminate.
  - discriminate.
Defined.

(** ** The detector's window and markers *)

Lemma sliceLast_app_ge {A} (n : nat) (older recent : list A) :
  (n <= length recent)%nat ->
  sliceLast n (older ++ recent) = sliceLast n recent.
Proof.
  intros Hn. unfold sliceLast. rewrite length_app.
  rewrite drop_app_ge by lia. f_equal. lia.
Qed.

(** X5. The detector looks at the last five assistant messages only:
    once five assistant messages have followed, whatever came before
    them, summary or not, no longer counts. *)
Theorem detector_window_is_five `{JSRuntime}
    (older recent : list Message) :
  (5 <= length (List.filter (fun msg => isAssistant (role msg)) recent))%nat ->
  fallbackHasExistingSummary (older ++ recent) =
  fallbackHasExistingSummary recent.
Proof.
  intros Hfive. unfold fallbackHasExistingSummary.
  destruct recent as [|m recent]; [simpl in Hfive; lia|].
  destruct (older ++ m :: recent) eqn:Hall; [by destruct older|].
  rewrite <- Hall, List.filter_app.
  by rewrite sliceLast_app_ge.
Qed.

Lemma detector_window_is_five_witness :
  fallbackHasExistingSummary (H := asciiRuntime)
    ([assistantSays "- one - two" 1] ++
     [assistantSays "a" 2; assistantSays "b" 3; assistantSays "c" 4;
      assistantSays "d" 5; assistantSays "e" 6]) = false.
Proof.
  rewrite (detector_window_is_five (H := asciiRuntime)).
  - reflexivity.
  - simpl. lia.
Defined.

Lemma startsWith_split sub s :
  startsWith sub s = true -> exists post, s = sub ++ post.
Proof.
  revert s. induction sub as [|p sub IH]; intros s Hs; [by exists s|].
  destruct s as [|c s]; [discriminate|]. simpl in Hs.
  apply andb_prop in Hs as [Hpc Hs]. apply N.eqb_eq in Hpc as ->.
  destruct (IH s Hs) as [post ->]. by exists post.
Qed.

Lemma includes_split s sub :
  includes s sub = true -> exists pre post, s = pre ++ sub ++ post.
Proof.
  induction s as [|c s IH]; simpl; rewrite orb_true_iff.
  - intros [Hs|]; [|discriminate].
    apply startsWith_split in Hs as [post Hs]. by exists [], post.
  - intros [Hs|Hs].
    + apply startsWith_split in Hs as [post Hs]. by exists [], post.
    + destruct (IH Hs) as (pre & post & ->). by exists (c :: pre), post.
Qed.

Lemma includes_unit s c : In c s -> includes s [c] = true.
Proof.
  induction s as [|d s IH]; [done|]. intros [->|Hin]; simpl.
  - by rewrite N.eqb_refl.
  - rewrite (IH Hin). apply orb_true_r.
Qed.

Lemma star_or_hyphen_counted s :
  (length (List.filter isStarOrHyphen s)
   <= length (List.filter isBulletChar s))%nat.
Proof.
  induction s as [|c s IH]; [done|]. simpl.
  unfold isStarOrHyphen, isBulletChar in *.
  destruct (c =? 42) eqn:H42, (c =? 45) eqn:H45;
    rewrite ?orb_true_r; simpl; try lia.
  destruct ((c =? 226) || (c =? 8364) || (c =? 162)); simpl; lia.
Qed.

Lemma star_or_hyphen_included s :
  (1 <= length (List.filter isStarOrHyphen s))%nat ->
  includes s (lit "*") || includes s (lit "-") = true.
Proof.
  intros Hn.
  destruct (List.filter isStarOrHyphen s) as [|c l] eqn:Hf;
    [simpl in Hn; lia|].
  assert (Hin : In c (List.filter isStarOrHyphen s)) by (rewrite Hf; by left).
  apply List.filter_In in Hin as [Hin Hc].
  unfold isStarOrHyphen in Hc. apply orb_prop in Hc as [Hc|Hc];
    apply N.eqb_eq in Hc as ->.
  - change (lit "*") with [42]. by rewrite (includes_unit _ _ Hin).
  - change (lit "-") with [45]. rewrite (includes_unit _ _ Hin).
    apply orb_true_r.
Qed.

(** A message whose text holds the bullet, or two stars or hyphens,
    passes the detector's test. *)
Lemma looksLikeSummary_marked `{JSRuntime} msg :
  includes (content msg) BULLET = true \/
  (2 <= length (List.filter isStarOrHyphen (content msg)))%nat ->
  looksLikeSummary msg = true.
Proof.
  intros Hmarked. unfold looksLikeSummary. cbv zeta.
  apply orb_true_iff. left. apply andb_true_iff.
  destruct Hmarked as [Hb|Hn].
  - rewrite Hb. split; [reflexivity|].
    apply includes_split in Hb as (pre & post & ->).
    pose proof (bullets_counted pre post). apply Nat.leb_le. lia.
  - split.
    + rewrite <- orb_assoc, star_or_hyphen_included by lia.
      apply orb_true_r.
    + pose proof (star_or_hyphen_counted (content msg)).
      apply Nat.leb_le. lia.
Qed.

(** X6. When the last message of the conversation on file is an
    assistant message that holds one bullet, or two stars or hyphens,
    the safety net changes nothing: one bullet is enough, its three code
    units are each counted as a marker. *)
Theorem marked_reply_counts_as_summary `{JSRuntime}
    (e : Env) (clock : Z) (conversationId participantId : jsstring)
    (w : World) (s : Session) (earlier : list Message) (msg : Message) :
  readConversation w conversationId = Some s ->
  messages s = earlier ++ [msg] ->
  role msg = assistant ->
  includes (content msg) BULLET = true \/
  (2 <= length (List.filter isStarOrHyphen (content msg)))%nat ->
  fallbackHasExistingSummary (messages s) = true /\
  fallbackEnsureConversationSummary e clock conversationId participantId w
  = w.
Proof.
  intros Hfile Hlast Hrole Hmarked.
  assert (Hfound : fallbackHasExistingSummary (messages s) = true).
  { rewrite Hlast. apply fallbackHasExistingSummary_snoc.
    - by rewrite Hrole.
    - by apply looksLikeSummary_marked. }
  split; [exact Hfound|]. by eapply ensure_present.
Qed.

Lemma marked_reply_counts_as_summary_witness :
  fallbackEnsureConversationSummary (H := asciiRuntime) devEnv 9001
    (lit "c1") (lit "p1")
    (db_conversations_append devEnv (lit "c1")
       (assistantSays "So far: - research - family" 4000) openWorld)
  = db_conversations_append devEnv (lit "c1")
      (assistantSays "So far: - research - family" 4000) openWorld.
Proof.
  refine (proj2 (marked_reply_counts_as_summary (H := asciiRuntime) devEnv
    9001 (lit "c1") (lit "p1") _
    (setMessages openSession
       (messages openSession ++
        [assistantSays "So far: - research - family" 4000]))
    (messages openSession)
    (assistantSays "So far: - research - family" 4000) _ _ _ _)).
  - vm_compute. reflexivity.
  - reflexivity.
  - reflexivity.
  - right. vm_compute. lia.
Defined.

(** ** Replies *)

(** X7. The reply generator never answers with the empty string:
    without an API key it answers with its fixed sentence, with a
    completed call with the trimmed completion, which it accepts only
    when not empty, and after any failure with a fallback sentence. *)
Theorem reply_is_never_empty `{JSRuntime}
    (e : Env) (provider : ProviderResult) (random : nat)
    (messages : list Message) (prompt : option jsstring) :
  generateAIResponse e provider random messages prompt <> [].
Proof.
  unfold generateAIResponse.
  destruct (negb (truthy (OPENAI_API_KEY e))); [discriminate|].
  destruct (awaitCompletion provider) as [response|message] eqn:Hawait.
  - destruct provider as [content|m|]; simpl in Hawait; try discriminate.
    destruct (option_map trim content) as [[|c r]|]; try discriminate.
    by injection Hawait as <-.
  - apply fallbackReplies_nonempty, generateIntelligentFallback_in.
Qed.

Lemma letters_squeezed input :
  forallb (fun c => isAsciiLetter c || isWhiteSpace c) input = true ->
  forallb isAsciiLetter
    (List.filter (fun c => negb (isWhiteSpace c)) input) = true.
Proof.
  induction input as [|c input IH]; [done|]. simpl.
  intros Hall. apply andb_prop in Hall as [Hc Hall].
  destruct (isWhiteSpace c); simpl; [by apply IH|].
  rewrite orb_false_r in Hc. by rewrite Hc, IH.
Qed.

Lemma letters_are_gibberish (input : jsstring) :
  forallb (fun c => isAsciiLetter c || isWhiteSpace c) input = true ->
  (4 <= length (List.filter (fun c => negb (isWhiteSpace c)) input))%nat ->
  testWords true
    [lit "real"; lit "word"; lit "here"; lit "there"; lit "when";
     lit "what"; lit "where"; lit "why"; lit "how"] None input = false ->
  isGibberish input = true.
Proof.
  intros Hletters Hfour Hwords. unfold isGibberish.
  do 3 (cbv zeta;
        match goal with
        | |- (if ?b then true else _) = true => destruct b; [reflexivity|]
        end).
  cbv zeta. rewrite Hwords, (letters_squeezed _ Hletters). cbn [negb andb].
  apply Nat.leb_le in Hfour. by rewrite Hfour.
Qed.

(** X8. An input made of ASCII letters and white space only, with at
    least four letters, is classified as gibberish unless it holds one
    of the nine words [real], [word], [here], [there], [when], [what],
    [where], [why], [how] as a word of its own. *)
Theorem plain_words_are_gibberish (input : jsstring) :
  forallb (fun c => isAsciiLetter c || isWhiteSpace c) input = true ->
  (4 <= length (List.filter (fun c => negb (isWhiteSpace c)) input))%nat ->
  testWords true
    [lit "real"; lit "word"; lit "here"; lit "there"; lit "when";
     lit "what"; lit "where"; lit "why"; lit "how"] None input = false ->
  isGibberish input = true.
Proof. apply letters_are_gibberish. Qed.

Lemma plain_words_are_gibberish_witness :
  isGibberish (lit "i changed my mind") = true.
Proof.
  apply plain_words_are_gibberish.
  - reflexivity.
  - vm_compute. lia.
  - reflexivity.
Defined.

(** ** The storage gateway, again *)

(** X9. A save that writes the conversation files can be read back
    under the record's id, leaves every other conversation file as it
    was, and touches neither the participant files nor the tracker. *)
Theorem save_then_read (e : Env) (s : Session) (w : World) :
  writesFile e = true ->
  readConversation (saveSession e s w).2 (id s) = Some s /\
  (forall k, k <> id s ->
     readConversation (saveSession e s w).2 k = readConversation w k) /\
  participantFiles (saveSession e s w).2 = participantFiles w /\
  activeConversations (saveSession e s w).2 = activeConversations w.
Proof.
  intros Hf. split; [by apply saveSession_read|].
  split; [|done].
  intros k Hk. unfold readConversation.
  rewrite saveSession_files, Hf. by apply lookup_insert_ne.
Qed.

Lemma save_then_read_witness :
  readConversation (saveSession devEnv openSession emptyWorld).2 (lit "c1")
  = Some openSession.
Proof. exact (proj1 (save_then_read devEnv openSession emptyWorld eq_refl)). Defined.

(** X10. A save reaches neither store exactly when the process runs in
    production with a client whose store does not answer; the world is
    then the one before and both flags of the result are false. *)
Theorem save_lost_only_in_production (e : Env) (s : Session) (w : World) :
  (file (saveSession e s w).1 || database (saveSession e s w).1 = false <->
   isProduction e = true /\ hasPrisma e = true /\
   primaryStoreAnswers e = false) /\
  (file (saveSession e s w).1 || database (saveSession e s w).1 = false ->
   (saveSession e s w).2 = w).
Proof.
  unfold saveSession, writesFile, writesPrimary. cbn [fst snd file database].
  destruct (isProduction e), (hasPrisma e), (primaryStoreAnswers e);
    cbn; split; try (intros; discriminate); try tauto;
    try (split; [discriminate | intros (? & ? & ?); discriminate]).
  intros _. by destruct w.
Qed.

Lemma save_lost_only_in_production_witness :
  (saveSession productionStoreDown openSession emptyWorld).2 = emptyWorld.
Proof.
  apply (proj2 (save_lost_only_in_production productionStoreDown openSession
                  emptyWorld)).
  reflexivity.
Defined.

(** ** The conversation shims *)

(** X11. Appending a message through the shim to a conversation that is
    not on file changes nothing and loading it gives the empty list;
    for a conversation on file under its own id, with the files being
    written, loading after the append gives the former list with the
    message at its end, and the other fields of the record are kept. *)
Theorem append_then_load (e : Env) (conversationId : jsstring)
    (message : Message) (w : World) :
  (readConversation w conversationId = None ->
   db_conversations_append e conversationId message w = w /\
   db_conversations_load w conversationId = []) /\
  (forall c,
     writesFile e = true ->
     readConversation w conversationId = Some c ->
     id c = conversationId ->
     db_conversations_load
       (db_conversations_append e conversationId message w) conversationId
     = db_conversations_load w conversationId ++ [message] /\
     readConversation
       (db_conversations_append e conversationId message w) conversationId
     = Some (setMessages c (messages c ++ [message]))).
Proof.
  unfold db_conversations_append, db_conversations_load. split.
  - intros Hr. by rewrite Hr.
  - intros c Hf Hr Hid. rewrite Hr.
    assert (Hread :
      readConversation
        (saveSession e (setMessages c (messages c ++ [message])) w).2
        conversationId
      = Some (setMessages c (messages c ++ [message]))).
    { rewrite <- Hid.
      exact (saveSession_read e (setMessages c (messages c ++ [message]))
               w Hf). }
    by rewrite Hread.
Qed.

Lemma append_then_load_witness :
  db_conversations_load
    (db_conversations_append devEnv (lit "c1")
       (userSays "It was the flood" 4000) openWorld) (lit "c1")
  = db_conversations_load openWorld (lit "c1")
    ++ [userSays "It was the flood" 4000].
Proof.
  destruct (proj2 (append_then_load devEnv (lit "c1")
                     (userSays "It was the flood" 4000) openWorld)
              openSession) as [Hload _].
  - reflexivity.
  - vm_compute. reflexivity.
  - reflexivity.
  - exact Hload.
Defined.

(** ** Turns and the tracker *)

Section MoreTurns.
Context `{JSRuntime}.

Lemma end_not_tracked e now summaryClock conversationId w :
  activeConversations w !! conversationId = None ->
  conversationsEnd e now summaryClock conversationId w =
  (Failure 404 (Some conversation_not_found), w).
Proof. intros Hnone. unfold conversationsEnd. by rewrite Hnone. Qed.

Lemma end_evicts e now summaryClock conversationId w :
  (conversationsEnd e now summaryClock conversationId w).1 = Ended ->
  activeConversations
    (conversationsEnd e now summaryClock conversationId w).2
    !! conversationId = None.
Proof.
  unfold conversationsEnd.
  destruct (activeConversations w !! conversationId); [|discriminate].
  destruct (readConversation w conversationId); [|discriminate].
  destruct ensureAndReload. intros _. apply deleteActive_gone.
Qed.

End MoreTurns.

(** X12. A conversation that was started accepts its first turn: with
    the conversation files being written and the participant on file,
    a start followed by a valid turn without the termination phrase,
    made before the time limit, is answered with a reply, and the
    record on file then holds exactly the user's message and that
    reply, with no end timestamp and no duration. *)
Theorem started_conversation_takes_a_turn `{JSRuntime}
    (e : Env) (provider : ProviderResult) (random : nat)
    (started now summaryClock replyClock : Z)
    (conversationId : jsstring) (participant body : option jsstring)
    (w : World) :
  writesFile e = true ->
  truthy participant = true ->
  is_Some (participantFiles w !! textOf participant) ->
  isBlank body = false ->
  shouldEndNow (textOf body) = false ->
  timeLimitReached e (elapsedSeconds now started) = false ->
  let opened :=
    conversationsStart e conversationId started participant w in
  let turn :=
    conversationsMessage e provider random now summaryClock replyClock
      conversationId body opened.2 in
  opened.1 = Started conversationId /\
  exists reply filed,
    turn.1 = Reply reply false /\
    readConversation turn.2 conversationId = Some filed /\
    messages filed = [userTurn now body; assistantTurn replyClock reply] /\
    endedAt filed = None /\ durationSeconds filed = None /\
    is_Some (activeConversations turn.2 !! conversationId).
Proof.
  intros Hf Htruthy [p Hp] Hvalid Hphrase Htime opened turn.
  subst turn opened. unfold conversationsStart.
  rewrite Htruthy, Hp. cbn [negb fst snd].
  split; [reflexivity|].
  set (fresh :=
    {| id := conversationId; participantId := textOf participant;
       startedAt := started; endedAt := None; durationSeconds := None;
       systemPrompt := Some SYSTEM_PROMPT; messages := [] |}).
  set (entry :=
    {| ac_participantId := participant; ac_startedAt := started;
       ac_lastActivity := Some started |}).
  assert (Htracked :
    activeConversations
      (setActive conversationId entry (saveSession e fresh w).2)
      !! conversationId = Some entry) by apply lookup_insert_eq.
  assert (Hfile :
    readConversation
      (setActive conversationId entry (saveSession e fresh w).2)
      conversationId = Some fresh)
    by exact (saveSession_read e fresh w Hf).
  rewrite (message_turn e provider random now summaryClock replyClock
             conversationId body _ entry fresh Hvalid Htracked Htime Hfile
             Hphrase).
  cbv zeta. cbn [fst snd].
  eexists. eexists. split; [reflexivity|]. split.
  - match goal with
    | |- readConversation (saveSession _ ?s _).2 _ = _ =>
        exact (saveSession_read e s _ Hf)
    end.
  - cbn. repeat split. rewrite lookup_insert_eq. eauto.
Qed.

Lemma started_conversation_takes_a_turn_witness :
  exists reply,
    (conversationsMessage (H := asciiRuntime) devEnv TimedOut 0
       2000 2001 2002 (lit "c1") (Some (lit "hello there"))
       (conversationsStart devEnv (lit "c1") 1000 (Some (lit "p1"))
          enrolledWorld).2).1 = Reply reply false.
Proof.
  destruct (started_conversation_takes_a_turn (H := asciiRuntime) devEnv
    TimedOut 0 1000 2000 2001 2002 (lit "c1") (Some (lit "p1"))
    (Some (lit "hello there")) enrolledWorld)
    as (_ & reply & filed & Hr & _).
  - reflexivity.
  - reflexivity.
  - vm_compute. eauto.
  - reflexivity.
  - reflexivity.
  - reflexivity.
  - exists reply. exact Hr.
Defined.

(** X13. Where the process does not write the conversation files, that
    is in production with a client of the primary store, no turn is
    ever answered and no session is ever closed through these
    endpoints: in every world such a deployment reaches from a fresh
    start, a turn is refused with the validation, not-found, timeout
    or data error, and the explicit end with the not-found or data
    error. *)
Theorem no_files_no_turns `{JSRuntime}
    (fallbackMounted : bool) (e : Env) (w : World)
    (provider : ProviderResult) (random : nat)
    (now summaryClock replyClock : Z) (conversationId : jsstring)
    (body : option jsstring) :
  writesFile e = false ->
  Reachable fallbackMounted e w ->
  In (conversationsMessage e provider random now summaryClock replyClock
        conversationId body w).1
     [Failure 400 (Some validation_error);
      Failure 404 (Some conversation_not_found);
      Failure 410 (Some timeout);
      Failure 404 (Some data_error)] /\
  In (conversationsEnd e now summaryClock conversationId w).1
     [Failure 404 (Some conversation_not_found);
      Failure 404 (Some data_error)].
Proof.
  intros Hf Hreach. apply reachable_inOrder in Hreach as [_ Hnone].
  assert (Hr : readConversation w conversationId = None).
  { unfold readConversation. rewrite (Hnone Hf). apply lookup_empty. }
  unfold conversationsMessage, conversationsEnd. rewrite Hr. split.
  - destruct (isBlank body); [simpl; tauto|].
    destruct (activeConversations w !! conversationId); [|simpl; tauto].
    destruct (timeLimitReached e _); [simpl; tauto|].
    destruct (shouldEndNow _); simpl; tauto.
  - destruct (activeConversations w !! conversationId); simpl; tauto.
Qed.

Lemma no_files_no_turns_witness :
  (conversationsMessage (H := asciiRuntime) productionStoreDown TimedOut 0
     2000 2001 2002 (lit "c1") (Some (lit "hello there"))
     (conversationsStart productionStoreDown (lit "c1") 1000
        (Some (lit "p1")) enrolledWorld).2).1
  = Failure 404 (Some data_error).
Proof.
  destruct (no_files_no_turns (H := asciiRuntime) false productionStoreDown
    (conversationsStart productionStoreDown (lit "c1") 1000
       (Some (lit "p1")) enrolledWorld).2
    TimedOut 0 2000 2001 2002 (lit "c1") (Some (lit "hello there")))
    as [Hturn _].
  - reflexivity.
  - eapply reach_step; [|apply step_start].
    apply (reach_fresh (H := asciiRuntime)). repeat split.
  - vm_compute. reflexivity.
Defined.

(** X14. A turn that is answered keeps the session tracked with the
    start it had: the turn's instant is recorded as the last activity
    and the start is left alone, so activity never postpones the time
    limit. *)
Theorem activity_does_not_extend_the_limit `{JSRuntime}
    (e : Env) (provider : ProviderResult) (random : nat)
    (now summaryClock replyClock : Z) (conversationId : jsstring)
    (body : option jsstring) (w : World) (activeConv : ActiveConversation)
    (s : Session) :
  isBlank body = false ->
  activeConversations w !! conversationId = Some activeConv ->
  timeLimitReached e (elapsedSeconds now (ac_startedAt activeConv)) = false ->
  readConversation w conversationId = Some s ->
  shouldEndNow (textOf body) = false ->
  let result :=
    conversationsMessage e provider random now summaryClock replyClock
      conversationId body w in
  exists entry,
    activeConversations result.2 !! conversationId = Some entry /\
    ac_startedAt entry = ac_startedAt activeConv /\
    ac_lastActivity entry = Some now /\
    forall later,
      timeLimitReached e (elapsedSeconds later (ac_startedAt entry)) =
      timeLimitReached e (elapsedSeconds later (ac_startedAt activeConv)).
Proof.
  intros Hvalid Htracked Htime Hfile Hphrase result. subst result.
  rewrite (message_turn _ _ _ _ _ _ _ _ _ _ _ Hvalid Htracked Htime Hfile
             Hphrase).
  cbv zeta. cbn [snd]. rewrite saveSession_active.
  eexists. split; [apply lookup_insert_eq|]. by cbn.
Qed.

Lemma activity_does_not_extend_the_limit_witness :
  exists entry,
    activeConversations
      (conversationsMessage (H := asciiRuntime) devEnv TimedOut 0
         5000 5001 5002 (lit "c1") (Some (lit "hello there")) openWorld).2
      !! lit "c1" = Some entry /\
    ac_startedAt entry = 1000%Z.
Proof.
  destruct (activity_does_not_extend_the_limit (H := asciiRuntime) devEnv
    TimedOut 0 5000 5001 5002 (lit "c1") (Some (lit "hello there"))
    openWorld openConv openSession)
    as (entry & He & Hs & _).
  - reflexivity.
  - vm_compute. reflexivity.
  - reflexivity.
  - vm_compute. reflexivity.
  - reflexivity.
  - exists entry. split; [exact He | exact Hs].
Defined.

(** X15. A session that runs into the time limit is evicted without
    being closed: the turn that finds the limit reached leaves the
    record on file as it was, with no end timestamp written, and an
    explicit end that follows is refused with the not-found error and
    changes nothing, so the record stays open on file. *)
Theorem timed_out_session_stays_open_on_file `{JSRuntime}
    (e : Env) (provider : ProviderResult) (random : nat)
    (now summaryClock replyClock later laterClock : Z)
    (conversationId : jsstring) (body : option jsstring) (w : World)
    (activeConv : ActiveConversation) :
  isBlank body = false ->
  activeConversations w !! conversationId = Some activeConv ->
  timeLimitReached e (elapsedSeconds now (ac_startedAt activeConv)) = true ->
  let expired :=
    conversationsMessage e provider random now summaryClock replyClock
      conversationId body w in
  expired.1 = Failure 410 (Some timeout) /\
  readConversation expired.2 conversationId =
    readConversation w conversationId /\
  conversationsEnd e later laterClock conversationId expired.2 =
    (Failure 404 (Some conversation_not_found), expired.2).
Proof.
  intros Hvalid Htracked Hlimit expired. subst expired.
  rewrite (message_expired _ _ _ _ _ _ _ _ _ _ Hvalid Htracked Hlimit).
  cbn [fst snd]. split; [reflexivity|]. split; [reflexivity|].
  apply end_not_tracked, deleteActive_gone.
Qed.

Lemma timed_out_session_stays_open_on_file_witness :
  endedAt <$>
    readConversation
      (conversationsMessage (H := asciiRuntime) devEnv TimedOut 0
         301000 301001 301002 (lit "c1") (Some (lit "hello there"))
         openWorld).2 (lit "c1")
  = Some None.
Proof.
  destruct (timed_out_session_stays_open_on_file (H := asciiRuntime) devEnv
    TimedOut 0 301000 301001 301002 400000 400001 (lit "c1")
    (Some (lit "hello there")) openWorld openConv)
    as (_ & Hsame & _).
  - reflexivity.
  - vm_compute. reflexivity.
  - reflexivity.
  - rewrite Hsame. vm_compute. reflexivity.
Defined.

(** X16. Once the explicit end has closed a session, a second explicit
    end and every later turn with a valid text for the same id are
    refused with the not-found error and change nothing. *)
Theorem closed_session_is_gone `{JSRuntime}
    (e : Env) (provider : ProviderResult) (random : nat)
    (now summaryClock later laterClock replyClock : Z)
    (conversationId : jsstring) (body : option jsstring) (w : World) :
  (conversationsEnd e now summaryClock conversationId w).1 = Ended ->
  let closed := (conversationsEnd e now summaryClock conversationId w).2 in
  conversationsEnd e later laterClock conversationId closed =
    (Failure 404 (Some conversation_not_found), closed) /\
  (isBlank body = false ->
   conversationsMessage e provider random later laterClock replyClock
     conversationId body closed =
   (Failure 404 (Some conversation_not_found), closed)).
Proof.
  intros Hended closed. subst closed.
  pose proof (end_evicts e now summaryClock conversationId w Hended) as Hgone.
  split.
  - by apply end_not_tracked.
  - intros Hvalid. by apply message_untracked.
Qed.

Lemma closed_session_is_gone_witness :
  (conversationsEnd (H := asciiRuntime) devEnv 70000 70001 (lit "c1")
     (conversationsEnd (H := asciiRuntime) devEnv 60000 60001 (lit "c1")
        openWorld).2).1
  = Failure 404 (Some conversation_not_found).
Proof.
  destruct (closed_session_is_gone (H := asciiRuntime) devEnv TimedOut 0
    60000 60001 70000 70001 70002 (lit "c1") (Some (lit "hello there"))
    openWorld) as [Hend _].
  - vm_compute. reflexivity.
  - by rewrite Hend.
Defined.

(** ** The CSV escape *)

Lemma undouble_double s : undoubleQuotes (doubleQuotes s) = s.
Proof.
  induction s as [|c s IH]; [reflexivity|].
  change (doubleQuotes (c :: s))
    with ((if c =? 34 then [34; 34] else [c]) ++ doubleQuotes s).
  destruct (c =? 34) eqn:Hc.
  - apply N.eqb_eq in Hc as ->. simpl. by rewrite IH.
  - change ([c] ++ doubleQuotes s) with (c :: doubleQuotes s).
    destruct (doubleQuotes s) as [|d q] eqn:Hq.
    + simpl. by rewrite <- IH.
    + change (undoubleQuotes (c :: d :: q))
        with (if (c =? 34) && (d =? 34) then 34 :: undoubleQuotes q
              else c :: undoubleQuotes (d :: q)).
      by rewrite Hc, IH.
Qed.

Lemma includes_head c s :
  includes (c :: s) [c] = true.
Proof. simpl. by rewrite N.eqb_refl. Qed.

(** X17. What [escapeCsv] writes can be read back: the field it
    produces, read as a CSV field (quoted when it opens with a
    quotation mark, pairs of marks standing for one), is the string it
    was given; so two strings never get the same field. *)
Theorem escapeCsv_reads_back (str other : jsstring) :
  readCsvField (escapeCsv str) = str /\
  (escapeCsv str = escapeCsv other -> str = other).
Proof.
  assert (Hback : forall s, readCsvField (escapeCsv s) = s).
  { intros s. unfold escapeCsv.
    destruct (includes s (lit ",") || includes s [34] || includes s NL)
      eqn:Hq.
    - change ([34] ++ doubleQuotes s ++ [34])
        with (34 :: (doubleQuotes s ++ [34])).
      unfold readCsvField. rewrite removelast_last. apply undouble_double.
    - apply orb_false_elim in Hq as [Hq _].
      apply orb_false_elim in Hq as [_ Hq].
      destruct s as [|c s]; [reflexivity|].
      destruct (N.eq_dec c 34) as [->|Hc].
      + by rewrite (includes_head 34 s) in Hq.
      + unfold readCsvField.
        destruct c as [|p]; [reflexivity|].
        do 6 (destruct p as [p|p|]; try reflexivity). by destruct Hc. }
  split; [apply Hback|].
  intros Heq. by rewrite <- (Hback str), <- (Hback other), Heq.
Qed.

Lemma escapeCsv_reads_back_witness :
  lit "rain, then snow" = lit "rain, then snow".
Proof.
  apply (proj2 (escapeCsv_reads_back (lit "rain, then snow")
                  (lit "rain, then snow"))).
  reflexivity.
Defined.

(** ** The summary of the survey answer *)

Lemma trimStart_suffix s : exists pre, s = pre ++ trimStart s.
Proof.
  induction s as [|c s [pre IH]]; [by exists []|]. simpl.
  destruct (isWhiteSpace c); [|by exists []].
  exists (c :: pre). simpl. f_equal. exact IH.
Qed.

Lemma trimEnd_prefix s : exists post, s = trimEnd s ++ post.
Proof.
  unfold trimEnd. destruct (trimStart_suffix (rev s)) as [pre Hpre].
  exists (rev pre).
  by rewrite <- rev_app_distr, <- Hpre, rev_involutive.
Qed.

Lemma trim_infix s : exists pre post, s = pre ++ trim s ++ post.
Proof.
  unfold trim. destruct (trimStart_suffix s) as [pre Hpre].
  destruct (trimEnd_prefix (trimStart s)) as [post Hpost].
  exists pre, post. by rewrite <- Hpost.
Qed.

Lemma trim_length s : (length (trim s) <= length s)%nat.
Proof.
  destruct (trim_infix s) as (pre & post & Hs).
  rewrite Hs at 2. rewrite !length_app. lia.
Qed.

Lemma trim_Forall (P : N -> Prop) s : Forall P s -> Forall P (trim s).
Proof.
  destruct (trim_infix s) as (pre & post & Hs). rewrite Hs at 1.
  rewrite !Forall_app. tauto.
Qed.

Lemma matchLiteral_length ci pat s rest :
  matchLiteral ci pat s = Some rest -> (length rest <= length s)%nat.
Proof.
  revert s. induction pat as [|p pat IH]; intros s.
  - simpl. intros [= ->]. lia.
  - destruct s as [|c s]; [discriminate|]. simpl.
    destruct (if ci then _ else _); [|discriminate].
    intros Hm. apply IH in Hm. lia.
Qed.

Lemma firstAlternative_length alts s rest :
  firstAlternative alts s = Some rest -> (length rest <= length s)%nat.
Proof.
  induction alts as [|alt alts IH]; [discriminate|]. simpl.
  destruct (matchLiteral true alt s) eqn:Hm; [|exact IH].
  intros [= <-]. by eapply matchLiteral_length.
Qed.

Lemma trimStart_length s : (length (trimStart s) <= length s)%nat.
Proof.
  destruct (trimStart_suffix s) as [pre Hs]. rewrite Hs at 2.
  rewrite length_app. lia.
Qed.

Lemma stripHedge_length s : (length (stripHedge s) <= length s)%nat.
Proof.
  unfold stripHedge. destruct (firstAlternative HEDGES s) eqn:Hf; [|lia].
  apply firstAlternative_length in Hf.
  etransitivity; [apply trimStart_length|].
  destruct l as [|c l]; [lia|].
  destruct (N.eq_dec c 44) as [->|Hc]; [simpl in *; lia|].
  assert (match c with 44 => l | _ => c :: l end = c :: l) as ->; [|done].
  destruct c as [|p]; [reflexivity|].
  do 6 (destruct p as [p|p|]; try reflexivity). by destruct Hc.
Qed.

Lemma firstSegment_length s : (length (firstSegment s) <= length s)%nat.
Proof.
  induction s as [|c s IH]; [done|]. simpl.
  destruct (isSentenceEnd c); simpl; lia.
Qed.

Lemma firstSegment_open s :
  Forall (fun c => isSentenceEnd c = false) (firstSegment s).
Proof.
  induction s as [|c s IH]; [constructor|]. simpl.
  destruct (isSentenceEnd c) eqn:Hc; [constructor|by constructor].
Qed.

Lemma last_Forall (P : N -> Prop) s c :
  Forall P s -> last s = Some c -> P c.
Proof.
  intros Hall Hlast. rewrite Forall_forall in Hall. apply Hall.
  rewrite last_Some in Hlast.
  destruct Hlast as [l' ->]. apply elem_of_app. right. by left.
Qed.

Lemma sentence_not_closed s :
  match last (trim (firstSegment s)) with
  | Some c => isSentenceEnd c
  | None => false
  end = false.
Proof.
  destruct (last (trim (firstSegment s))) as [c|] eqn:Hlast; [|done].
  exact (last_Forall _ _ _ (trim_Forall _ _ (firstSegment_open s)) Hlast).
Qed.

(** X18. The summary of a survey answer is empty exactly for an answer
    that is blank, and is never more than one code unit longer than
    the trimmed answer. *)
Theorem survey_summary_empty_only_for_blank (text : jsstring) :
  (generateFallbackSummary text = [] <-> trim text = []) /\
  (length (generateFallbackSummary text) <= length (trim text) + 1)%nat.
Proof.
  unfold generateFallbackSummary.
  rewrite sentence_not_closed.
  destruct (trim text) as [|c t] eqn:Htrim.
  { rewrite orb_true_r. split; [done | simpl; lia]. }
  assert (Hempty : isEmpty text = false).
  { destruct text; [discriminate | reflexivity]. }
  rewrite Hempty. cbn [length Nat.eqb orb]. cbv zeta.
  destruct (S (length t) <=? 50)%nat; [split; [done | cbn [length]; lia]|].
  destruct (10 <? _)%nat eqn:Hlong.
  - split.
    + split; [|discriminate]. intros Happ.
      by apply app_eq_nil in Happ as [_ ?].
    + rewrite length_app. change (length (lit ".")) with 1%nat.
      pose proof (trim_length (firstSegment (stripHedge (c :: t)))).
      pose proof (firstSegment_length (stripHedge (c :: t))).
      pose proof (stripHedge_length (c :: t)).
      cbn [length] in *. lia.
  - destruct (100 <? S (length t))%nat eqn:Hhundred.
    + split; [done|].
      apply Nat.ltb_lt in Hhundred.
      rewrite length_app, length_take. change (length (lit "...")) with 3%nat.
      cbn [length]. lia.
    + split; [done | cbn [length]; lia].
Qed.

(** X19. Where the summary of a survey answer is the answer's first
    sentence, that is for a trimmed answer of more than fifty code
    units whose first segment, the hedge taken off, has more than ten
    once trimmed, it is that segment with a full stop put after it:
    the segment holds no full stop, exclamation or question mark, so
    the test for a closing mark never holds. *)
Theorem survey_summary_sentence_gets_full_stop (text : jsstring) :
  (50 < length (trim text))%nat ->
  (10 < length (trim (firstSegment (stripHedge (trim text)))))%nat ->
  generateFallbackSummary text =
    trim (firstSegment (stripHedge (trim text))) ++ lit "." /\
  Forall (fun c => isSentenceEnd c = false)
    (trim (firstSegment (stripHedge (trim text)))).
Proof.
  intros Hfifty Hten. split.
  - unfold generateFallbackSummary. rewrite sentence_not_closed.
    assert (Hempty : isEmpty text = false).
    { destruct text; [simpl in Hfifty; lia | reflexivity]. }
    rewrite Hempty.
    destruct (length (trim text)) as [|n] eqn:Hlen; [lia|].
    cbn [Nat.eqb orb]. cbv zeta.
    assert ((S n <=? 50)%nat = false) as -> by (apply Nat.leb_gt; lia).
    by assert ((10 <? length (trim (firstSegment (stripHedge (trim text)))))%nat
            = true) as -> by (apply Nat.ltb_lt; lia).
  - apply trim_Forall, firstSegment_open.
Qed.

Lemma survey_summary_sentence_gets_full_stop_witness :
  generateFallbackSummary
    (lit "I think, the glaciers I visited as a child are gone! That did it.")
  = lit "the glaciers I visited as a child are gone.".
Proof.
  destruct (survey_summary_sentence_gets_full_stop
    (lit "I think, the glaciers I visited as a child are gone! That did it."))
    as [Hs _].
  - vm_compute. lia.
  - vm_compute. lia.
  - rewrite Hs. vm_compute. reflexivity.
Defined.

(** ** Clearing all data *)

Lemma strEq_eq a b : strEq a b = true <-> a = b.
Proof.
  revert b. induction a as [|x a IH]; intros [|y b]; simpl; try done.
  rewrite andb_true_iff, N.eqb_eq, IH. split.
  - by intros [-> ->].
  - by intros [= -> ->].
Qed.

(** X20. The clearing endpoint does nothing without the exact
    confirmation: for a missing [confirm] and for any value other than
    [DELETE_ALL_DATA] it answers 400 and every store is as before. *)
Theorem clear_needs_exact_confirmation (e : Env) (confirm : option jsstring)
    (w : World) :
  confirm <> Some (lit "DELETE_ALL_DATA") ->
  adminClearAllData e confirm w = (400, w).
Proof.
  intros Hne. unfold adminClearAllData.
  destruct confirm as [c|]; [|reflexivity].
  destruct (strEq c (lit "DELETE_ALL_DATA")) eqn:Hc; [|reflexivity].
  apply strEq_eq in Hc as ->. by destruct Hne.
Qed.

Lemma clear_needs_exact_confirmation_witness :
  adminClearAllData devEnv (Some (lit "delete_all_data")) openWorld
  = (400, openWorld).
Proof.
  apply (clear_needs_exact_confirmation devEnv
           (Some (lit "delete_all_data")) openWorld).
  intros Heq. discriminate Heq.
Defined.

Lemma confirmed_clear_files (e : Env) (w : World) :
  conversationFiles
    (adminClearAllData e (Some (lit "DELETE_ALL_DATA")) w).2 = ∅ /\
  participantFiles
    (adminClearAllData e (Some (lit "DELETE_ALL_DATA")) w).2 = ∅ /\
  activeConversations
    (adminClearAllData e (Some (lit "DELETE_ALL_DATA")) w).2
  = activeConversations w /\
  (databaseAvailable e = true ->
   (adminClearAllData e (Some (lit "DELETE_ALL_DATA")) w).1 = 200 /\
   primaryStore
     (adminClearAllData e (Some (lit "DELETE_ALL_DATA")) w).2 = ∅) /\
  (databaseAvailable e = false ->
   (adminClearAllData e (Some (lit "DELETE_ALL_DATA")) w).1 = 500 /\
   primaryStore
     (adminClearAllData e (Some (lit "DELETE_ALL_DATA")) w).2
   = primaryStore w).
Proof.
  unfold adminClearAllData, clearAllData, clearFileStorage.
  assert (strEq (lit "DELETE_ALL_DATA") (lit "DELETE_ALL_DATA") = true)
    as -> by reflexivity.
  destruct (databaseAvailable e); cbn; repeat split; congruence.
Qed.

(** X21. A confirmed clearing deletes every participant file and every
    conversation file whatever the state of the primary store; it
    answers 200 exactly when the store is available, and then the
    store is emptied too. With the store unavailable it answers 500,
    the files being deleted all the same and the store left as it
    was. The tracker of open sessions is never touched. *)
Theorem confirmed_clear_deletes_the_files (e : Env) (w : World) :
  let result := adminClearAllData e (Some (lit "DELETE_ALL_DATA")) w in
  conversationFiles result.2 = ∅ /\
  participantFiles result.2 = ∅ /\
  activeConversations result.2 = activeConversations w /\
  (databaseAvailable e = true ->
   result.1 = 200 /\ primaryStore result.2 = ∅) /\
  (databaseAvailable e = false ->
   result.1 = 500 /\ primaryStore result.2 = primaryStore w).
Proof. exact (confirmed_clear_files e w). Qed.

Lemma confirmed_clear_deletes_the_files_witness :
  (adminClearAllData devEnv (Some (lit "DELETE_ALL_DATA")) openWorld).1 = 500
  /\ conversationFiles
       (adminClearAllData devEnv (Some (lit "DELETE_ALL_DATA")) openWorld).2
     = ∅.
Proof.
  pose proof (confirmed_clear_deletes_the_files devEnv openWorld) as Hclear.
  cbv zeta in Hclear. destruct Hclear as (Hfiles & _ & _ & _ & Hdown).
  split; [|exact Hfiles]. apply Hdown. reflexivity.
Defined.

(** X22. Clearing the data orphans the open sessions: a session that
    is tracked when a confirmed clearing runs gets, for its next turn
    with a valid text made before the time limit, the data error and
    not the not-found error, and that turn changes nothing. *)
Theorem cleared_session_gets_data_error `{JSRuntime}
    (e : Env) (provider : ProviderResult) (random : nat)
    (now summaryClock replyClock : Z) (conversationId : jsstring)
    (body : option jsstring) (w : World) (activeConv : ActiveConversation) :
  isBlank body = false ->
  activeConversations w !! conversationId = Some activeConv ->
  timeLimitReached e (elapsedSeconds now (ac_startedAt activeConv)) = false ->
  let cleared :=
    (adminClearAllData e (Some (lit "DELETE_ALL_DATA")) w).2 in
  conversationsMessage e provider random now summaryClock replyClock
    conversationId body cleared
  = (Failure 404 (Some data_error), cleared).
Proof.
  intros Hvalid Htracked Htime cleared.
  destruct (confirmed_clear_files e w) as (Hfiles & _ & Hactive & _).
  fold cleared in Hfiles, Hactive.
  unfold conversationsMessage, readConversation.
  rewrite Hvalid, Hactive, Htracked, Hfiles, lookup_empty. cbv zeta.
  rewrite Htime. by destruct (shouldEndNow _).
Qed.

Lemma cleared_session_gets_data_error_witness :
  (conversationsMessage (H := asciiRuntime) devEnv TimedOut 0
     5000 5001 5002 (lit "c1") (Some (lit "hello there"))
     (adminClearAllData devEnv (Some (lit "DELETE_ALL_DATA")) openWorld).2).1
  = Failure 404 (Some data_error).
Proof.
  rewrite (cleared_session_gets_data_error (H := asciiRuntime) devEnv
    TimedOut 0 5000 5001 5002 (lit "c1") (Some (lit "hello there"))
    openWorld openConv).
  - reflexivity.
  - reflexivity.
  - vm_compute. reflexivity.
  - reflexivity.
Defined.

(** ** Message rows and exported messages *)

Lemma lit_String a s : lit (String a s) = N_of_ascii a :: lit s.
Proof. reflexivity. Qed.

Lemma N_of_ascii_inj a b : N_of_ascii a = N_of_ascii b -> a = b.
Proof.
  intros Heq. by rewrite <- (ascii_N_embedding a), <- (ascii_N_embedding b), Heq.
Qed.

Lemma lit_inj s t : lit s = lit t -> s = t.
Proof.
  revert t. induction s as [|a s IH]; intros [|b t]; try done.
  rewrite !lit_String. intros [= Hab Hst].
  by rewrite (N_of_ascii_inj _ _ Hab), (IH _ Hst).
Qed.

Lemma pretty_N_char_digit x : isDigit (N_of_ascii (pretty_N_char x)) = true.
Proof. unfold pretty_N_char. by repeat case_match. Qed.

Lemma pretty_N_go_digits x s :
  Forall (fun c => isDigit c = true) (lit s) ->
  Forall (fun c => isDigit c = true) (lit (pretty_N_go x s)).
Proof.
  revert s. induction (N.lt_wf_0 x) as [x _ IH]; intros s Hs.
  destruct (decide (x = 0)) as [->|Hx]; [by rewrite pretty_N_go_0|].
  rewrite pretty_N_go_step by lia. apply IH.
  - apply N.div_lt; lia.
  - rewrite lit_String. constructor; [apply pretty_N_char_digit | exact Hs].
Qed.

Lemma decimal_digits n : Forall (fun c => isDigit c = true) (decimal n).
Proof.
  unfold decimal, pretty, pretty_nat, pretty, pretty_N.
  destruct (decide (N.of_nat n = 0)).
  - by repeat constructor.
  - apply pretty_N_go_digits. constructor.
Qed.

Lemma decimal_inj n m : decimal n = decimal m -> n = m.
Proof. intros Heq. by apply (inj pretty), lit_inj. Qed.

Lemma digits_then_other (a b : jsstring) x y u v :
  Forall (fun c => isDigit c = true) a ->
  Forall (fun c => isDigit c = true) b ->
  isDigit x = false -> isDigit y = false ->
  a ++ x :: u = b ++ y :: v -> a = b /\ u = v.
Proof.
  intros Ha. revert b. induction Ha as [|c a Hc Ha IH]; intros b Hb Hx Hy.
  - destruct Hb as [|d b Hd Hb]; simpl.
    + by intros [= _ ->].
    + intros [= -> _]. congruence.
  - destruct Hb as [|d b Hd Hb]; simpl.
    + intros [= -> _]. congruence.
    + intros [= -> Heq]. destruct (IH b Hb Hx Hy Heq) as [-> ->]. done.
Qed.

Lemma messageId_inj sessionId other index index' :
  messageId sessionId index = messageId other index' ->
  sessionId = other /\ index = index'.
Proof.
  unfold messageId. intros Heq.
  apply (f_equal (@rev N)) in Heq.
  rewrite !rev_app_distr in Heq.
  change (rev (lit "-msg-")) with (45 :: lit "gsm-") in Heq.
  rewrite <- !app_assoc in Heq. simpl in Heq.
  apply digits_then_other in Heq as [Hd Hs];
    [| apply Forall_rev, decimal_digits | apply Forall_rev, decimal_digits
     | reflexivity | reflexivity].
  injection Hs as Hs.
  apply (f_equal (@rev N)) in Hd, Hs. rewrite !rev_involutive in Hd, Hs.
  split; [exact Hs | by apply decimal_inj].
Qed.

Lemma exported_ids listing x :
  In x (getMessagesFromFiles listing) ->
  exists session index,
    In session listing /\ message_id x = messageId (id session) index /\
    session_id x = id session.
Proof.
  unfold getMessagesFromFiles. rewrite in_flat_map.
  intros (session & Hin & Hx). exists session.
  apply list_elem_of_In, elem_of_lookup_imap in Hx as (index & msg & -> & _).
  by exists index.
Qed.

Lemma exported_ids_one_session session :
  NoDup (message_id <$> imap (exportedMessage session) (messages session)).
Proof.
  apply NoDup_alt. intros i j x.
  rewrite !list_lookup_fmap, !list_lookup_imap.
  destruct (messages session !! i) as [mi|]; [|discriminate].
  destruct (messages session !! j) as [mj|]; [|discriminate].
  cbn. intros [= <-] [= Heq]. symmetry. by apply messageId_inj in Heq as [_ ?].
Qed.

(** X23. The identifiers of the message rows of one write are pairwise
    distinct, and rows of two writes share an identifier only when
    they belong to the same session and the same turn: the decimal
    index cannot be mistaken for a part of the session id. *)
Theorem message_row_ids_are_keys (clock clock' : Z) (s s' : Session) :
  NoDup (row_id <$> messageRows clock s) /\
  forall r r',
    r ∈ messageRows clock s -> r' ∈ messageRows clock' s' ->
    row_id r = row_id r' ->
    id s = id s' /\ row_turn r = row_turn r' /\
    row_sessionId r = row_sessionId r'.
Proof.
  unfold messageRows. split.
  - apply NoDup_alt. intros i j x.
    rewrite !list_lookup_fmap, !list_lookup_imap.
    destruct (messages s !! i) as [mi|]; [|discriminate].
    destruct (messages s !! j) as [mj|]; [|discriminate].
    cbn. intros [= <-] [= Heq]. symmetry.
    by apply messageId_inj in Heq as [_ ?].
  - intros r r' Hr Hr'.
    apply elem_of_lookup_imap in Hr as (i & m & -> & _).
    apply elem_of_lookup_imap in Hr' as (j & m' & -> & _).
    cbn. intros Heq. by apply messageId_inj in Heq as [-> ->].
Qed.

Lemma message_row_ids_are_keys_witness :
  id openSession = id openSession /\
  row_turn (messageRow 0 (lit "c1") 1
              (assistantSays "What did you take from it?" 3000)) =
  row_turn (messageRow 7 (lit "c1") 1
              (assistantSays "What did you take from it?" 3000)) /\
  lit "c1" = lit "c1".
Proof.
  apply (proj2 (message_row_ids_are_keys 0 7 openSession openSession)).
  - apply list_elem_of_In. right. left. reflexivity.
  - apply list_elem_of_In. right. left. reflexivity.
  - reflexivity.
Defined.

(** X24. The messages extracted from the conversation files have
    pairwise distinct identifiers whenever the files hold pairwise
    distinct session ids. *)
Theorem exported_message_ids_are_distinct (listing : list Session) :
  NoDup (id <$> listing) ->
  NoDup (message_id <$> getMessagesFromFiles listing).
Proof.
  induction listing as [|session listing IH]; [constructor|].
  rewrite fmap_cons, NoDup_cons. intros [Hfresh Hrest].
  change (getMessagesFromFiles (session :: listing))
    with (imap (exportedMessage session) (messages session)
          ++ getMessagesFromFiles listing).
  rewrite fmap_app. apply NoDup_app.
  split; [apply exported_ids_one_session|]. split; [|by apply IH].
  intros x Hx Hx'.
  apply list_elem_of_fmap in Hx as (m & -> & Hm).
  apply elem_of_lookup_imap in Hm as (i & msg & -> & _).
  apply list_elem_of_fmap in Hx' as (m' & Heq & Hm').
  apply list_elem_of_In, exported_ids in Hm'
    as (session' & j & Hin & Hid & _).
  cbn in Heq. rewrite Hid in Heq.
  apply messageId_inj in Heq as [Heq _].
  apply Hfresh. rewrite Heq.
  apply list_elem_of_fmap. exists session'. split; [done|].
  by apply list_elem_of_In.
Qed.

Lemma exported_message_ids_are_distinct_witness :
  NoDup (message_id <$> getMessagesFromFiles [openSession]).
Proof.
  apply (exported_message_ids_are_distinct [openSession]).
  apply NoDup_singleton.
Defined.

(** X25. The extraction drops and reorders nothing: the contents
    extracted are the contents of the messages of the files, file by
    file in the order of the listing, each message numbered from zero
    within its session and counted with the length of its content. *)
Theorem export_keeps_every_message (listing : list Session) :
  exported_content <$> getMessagesFromFiles listing =
    flat_map (fun session => content <$> messages session) listing /\
  turn_number <$> getMessagesFromFiles listing =
    flat_map (fun session => seq 0 (length (messages session))) listing /\
  Forall (fun x => character_count x = length (exported_content x))
    (getMessagesFromFiles listing).
Proof.
  assert (Hcontent : forall session (l : list Message) k,
    exported_content <$> imap (fun i => exportedMessage session (k + i)) l
    = content <$> l).
  { intros session l. induction l as [|m l IH]; intros k; [done|].
    cbn. f_equal.
    rewrite <- (IH (S k)). f_equal. apply imap_ext. intros i x _. cbn.
    by rewrite Nat.add_succ_r. }
  assert (Hturn : forall session (l : list Message) k,
    turn_number <$> imap (fun i => exportedMessage session (k + i)) l
    = seq k (length l)).
  { intros session l. induction l as [|m l IH]; intros k; [done|].
    cbn. rewrite Nat.add_0_r. f_equal.
    rewrite <- (IH (S k)). f_equal. apply imap_ext. intros i x _. cbn.
    by rewrite Nat.add_succ_r. }
  unfold getMessagesFromFiles.
  induction listing as [|session listing (IHc & IHt & IHn)];
    [by repeat split|].
  cbn [flat_map]. rewrite !fmap_app, IHc, IHt. repeat split.
  - f_equal. exact (Hcontent session (messages session) 0%nat).
  - f_equal. exact (Hturn session (messages session) 0%nat).
  - apply Forall_app. split; [|exact IHn].
    apply Forall_forall. intros x Hx.
    by apply elem_of_lookup_imap in Hx as (i & m & -> & _).
Qed.

(** ** The fallback reply to plain words *)

Lemma last_user_turn (earlier : list Message) now body :
  last (List.filter (fun msg => isUser (role msg))
          (earlier ++ [userTurn now body]))
  = Some (userTurn now body).
Proof. rewrite List.filter_app. cbn. apply last_snoc. Qed.

(** X26. When the provider call fails, a turn whose text, lower-cased
    and trimmed, is made of ASCII letters and white space only, with at
    least four letters and none of the nine words [real], [word],
    [here], [there], [when], [what], [where], [why], [how], is answered
    with the request to rephrase that is meant for gibberish. *)
Theorem plain_words_get_the_gibberish_reply `{JSRuntime}
    (e : Env) (provider : ProviderResult) (random : nat)
    (now summaryClock replyClock : Z) (conversationId : jsstring)
    (body : option jsstring) (w : World) (activeConv : ActiveConversation)
    (s : Session) (failure : jsstring) :
  isBlank body = false ->
  activeConversations w !! conversationId = Some activeConv ->
  timeLimitReached e (elapsedSeconds now (ac_startedAt activeConv)) = false ->
  readConversation w conversationId = Some s ->
  shouldEndNow (textOf body) = false ->
  truthy (OPENAI_API_KEY e) = true ->
  awaitCompletion provider = Thrown failure ->
  let input := trim (toLowerCase (trim (textOf body))) in
  forallb (fun c => isAsciiLetter c || isWhiteSpace c) input = true ->
  (4 <= length (List.filter (fun c => negb (isWhiteSpace c)) input))%nat ->
  testWords true
    [lit "real"; lit "word"; lit "here"; lit "there"; lit "when";
     lit "what"; lit "where"; lit "why"; lit "how"] None input = false ->
  (conversationsMessage e provider random now summaryClock replyClock
     conversationId body w).1 = Reply GIBBERISH_REPLY false.
Proof.
  intros Hvalid Htracked Htime Hfile Hphrase Hkey Hfail input
    Hletters Hfour Hwords.
  rewrite (message_turn _ _ _ _ _ _ _ _ _ _ _ Hvalid Htracked Htime Hfile
             Hphrase).
  cbv zeta. cbn [fst].
  rewrite (generateAIResponse_failure _ _ _ _ _ _ Hkey Hfail).
  unfold generateIntelligentFallback. rewrite last_user_turn.
  change (content (userTurn now body)) with (trim (textOf body)).
  fold input. by rewrite (letters_are_gibberish input Hletters Hfour Hwords).
Qed.

Lemma plain_words_get_the_gibberish_reply_witness :
  (conversationsMessage (H := asciiRuntime) devEnv TimedOut 0
     5000 5001 5002 (lit "c1") (Some (lit "I changed my mind")) openWorld).1
  = Reply GIBBERISH_REPLY false.
Proof.
  apply (plain_words_get_the_gibberish_reply (H := asciiRuntime) devEnv
    TimedOut 0 5000 5001 5002 (lit "c1") (Some (lit "I changed my mind"))
    openWorld openConv openSession (lit "OpenAI API timeout")).
  - reflexivity.
  - vm_compute. reflexivity.
  - reflexivity.
  - vm_compute. reflexivity.
  - reflexivity.
  - reflexivity.
  - reflexivity.
  - reflexivity.
  - vm_compute. lia.
  - reflexivity.
Defined.
